(** * Spendr RAG service: a shallow embedding of [backend/ragService.js]

    The two exported operations of the service, [buildEmbeddings] (ingestion)
    and [queryInsights] (retrieval, aggregation, prompting, validation), are
    transcribed as Rocq functions and the statements of the specification
    are proved (or refuted) about them.

    Conventions.
    - A JavaScript string is the list of its UTF-16 code units, so that
      [length], [trim] and the default [sort] order are those of the
      language.
    - A JavaScript number is an IEEE-754 binary64 value: Rocq's primitive
      [float], whose operations round to nearest, ties to even.
    - The abstract operations of the language that the service relies on but
      that are not transcribed (number parsing and printing, the locale
      rendering of a date) are the fields of a [Host].
    - The external collaborators (relational store, embedding runtime,
      vector index, text generator) are the fields of a [Services] record:
      each answers a call from the history of the calls made so far, and
      every call is appended to that history. *)

From Stdlib Require Import ZArith NArith List Floats Ascii String.
From stdpp Require Import base option list gmap sorting.

#[local] Open Scope N_scope.
Set Warnings "-clear-no-such-hyp".

(** ** Strings *)

Abbreviation jsstring := (list N).

(** The code units of an ASCII literal. *)
Definition u16 (s : string) : jsstring :=
  map N_of_ascii (list_ascii_of_string s).

(** [Array.prototype.join]. *)
Fixpoint join (sep : jsstring) (parts : list jsstring) : jsstring :=
  match parts with
  | [] => []
  | [p] => p
  | p :: rest => p ++ sep ++ join sep rest
  end.

(** WhiteSpace and LineTerminator code units, the ones [trim] removes. *)
Definition is_space (c : N) : bool :=
  (c =? 0x09) || (c =? 0x0A) || (c =? 0x0B) || (c =? 0x0C) || (c =? 0x0D)
  || (c =? 0x20) || (c =? 0xA0) || (c =? 0x1680)
  || ((0x2000 <=? c) && (c <=? 0x200A))
  || (c =? 0x2028) || (c =? 0x2029) || (c =? 0x202F) || (c =? 0x205F)
  || (c =? 0x3000) || (c =? 0xFEFF).

Fixpoint trimStart (s : jsstring) : jsstring :=
  match s with
  | c :: t => if is_space c then trimStart t else s
  | [] => []
  end.

(** [String.prototype.trim]. *)
Definition trim (s : jsstring) : jsstring :=
  rev (trimStart (rev (trimStart s))).

(** [s.startsWith(p)]. *)
Fixpoint starts_with (p s : jsstring) : bool :=
  match p, s with
  | [], _ => true
  | a :: p', b :: s' => (a =? b) && starts_with p' s'
  | _ :: _, [] => false
  end.

Definition marker_s : jsstring := u16 "<s>".
Definition marker_out : jsstring := u16 "[OUT]".

(** [s.replace(/<s>|\[OUT\]/g, "")]: one left-to-right scan; where a marker
    starts, its code units are skipped ([skip] counts the ones still to be
    dropped), elsewhere the code unit is copied. The scan never looks at
    its own output. *)
Fixpoint strip_from (skip : nat) (s : jsstring) : jsstring :=
  match s with
  | [] => []
  | c :: t =>
      match skip with
      | S k => strip_from k t
      | O =>
          if starts_with marker_s s then strip_from 2 t
          else if starts_with marker_out s then strip_from 4 t
          else c :: strip_from 0 t
      end
  end.

Definition strip_markers (s : jsstring) : jsstring := strip_from 0 s.

(** The comparison [a < b] of two strings: lexicographic on code units. *)
Fixpoint js_ltb (a b : jsstring) : bool :=
  match a, b with
  | _, [] => false
  | [], _ :: _ => true
  | x :: a', y :: b' =>
      if x <? y then true else if y <? x then false else js_ltb a' b'
  end.

(** The order of the default [Array.prototype.sort]: [a] may stay before
    [b] unless [b < a]. *)
Definition js_le (a b : jsstring) : Prop := js_ltb b a = false.

#[global] Instance js_le_dec (a b : jsstring) : Decision (js_le a b) :=
  decide (js_ltb b a = false).

(** [arr.sort()] on an array of distinct strings. *)
Definition js_sort (l : list jsstring) : list jsstring := merge_sort js_le l.

(** Decimal digits of a natural number. *)
Fixpoint uint_units (d : Decimal.uint) : jsstring :=
  match d with
  | Decimal.Nil => []
  | Decimal.D0 d => 48 :: uint_units d
  | Decimal.D1 d => 49 :: uint_units d
  | Decimal.D2 d => 50 :: uint_units d
  | Decimal.D3 d => 51 :: uint_units d
  | Decimal.D4 d => 52 :: uint_units d
  | Decimal.D5 d => 53 :: uint_units d
  | Decimal.D6 d => 54 :: uint_units d
  | Decimal.D7 d => 55 :: uint_units d
  | Decimal.D8 d => 56 :: uint_units d
  | Decimal.D9 d => 57 :: uint_units d
  end.

Definition decimal (n : N) : jsstring := uint_units (N.to_uint n).

(** ** Values *)

(** The values stored in rows and in index metadata: the primitives. *)
Inductive JSValue :=
| VUndefined
| VNull
| VBool (b : bool)
| VNum (x : float)
| VStr (s : jsstring).

(** What the language leaves to the host. [StringToNumber] and
    [NumberToString] are the abstract operations of these names;
    [monthLabel d] is
    [new Date(d).toLocaleString("default", {month: "long", year: "numeric"})],
    which depends on the default locale and on the time zone. *)
Record Host := {
  StringToNumber : jsstring -> float;
  NumberToString : float -> jsstring;
  monthLabel : JSValue -> jsstring;
}.

(** ** Numbers *)

Definition js_isNaN (x : float) : bool := PrimFloat.is_nan x.

(** ToBoolean on a number: [0], [-0] and [NaN] are falsy. *)
Definition truthy_num (x : float) : bool :=
  negb (PrimFloat.is_zero x || PrimFloat.is_nan x).

(** [Number.isFinite(x)]. *)
Definition js_isFinite (x : float) : bool :=
  match Prim2SF x with
  | S754_zero _ | S754_finite _ _ _ => true
  | _ => false
  end.

(** [x === y] or both [NaN] (SameValueZero). *)
Definition same_value_zero (x y : float) : bool :=
  PrimFloat.eqb x y || (PrimFloat.is_nan x && PrimFloat.is_nan y).

(** The integer [n] for which [n / 10^f - m * 2^e] is closest to zero, the
    larger one when there are two. *)
Definition fixed_n (f : nat) (m : positive) (e : Z) : Z :=
  let p := (10 ^ Z.of_nat f)%Z in
  if (0 <=? e)%Z then (Zpos m * 2 ^ e * p)%Z
  else ((2 * Zpos m * p + 2 ^ (- e)) / 2 ^ (1 - e))%Z.

(** The digits of [n] with a decimal point before the last [f] of them,
    padded with zeros on the left to [f + 1] digits. *)
Definition fixed_digits (f : nat) (n : Z) : jsstring :=
  let m := decimal (Z.to_N n) in
  let k := length m in
  let m := if (k <=? f)%nat then repeat 48 (f + 1 - k) ++ m else m in
  if (f =? 0)%nat then m
  else take (length m - f) m ++ u16 "." ++ drop (length m - f) m.

(** Whether [m * 2^e >= 10^21]. *)
Definition at_least_1e21 (m : positive) (e : Z) : bool :=
  if (0 <=? e)%Z then (10 ^ 21 <=? Zpos m * 2 ^ e)%Z
  else (10 ^ 21 * 2 ^ (- e) <=? Zpos m)%Z.

Section WithHost.

Context (host : Host).

(** [x.toFixed(f)], for [0 <= f <= 100]. *)
Definition toFixed (f : nat) (x : float) : jsstring :=
  match Prim2SF x with
  | S754_nan => u16 "NaN"
  | S754_infinity false => u16 "Infinity"
  | S754_infinity true => u16 "-Infinity"
  | S754_zero _ => fixed_digits f 0
  | S754_finite s m e =>
      (if s then u16 "-" else []) ++
      (if at_least_1e21 m e then NumberToString host (PrimFloat.abs x)
       else fixed_digits f (fixed_n f m e))
  end.

(** [Number(v)]. *)
Definition ToNumber (v : JSValue) : float :=
  match v with
  | VUndefined => PrimFloat.nan
  | VNull => PrimFloat.zero
  | VBool true => PrimFloat.one
  | VBool false => PrimFloat.zero
  | VNum x => x
  | VStr s => StringToNumber host s
  end.

(** The string a value contributes to a template literal. *)
Definition ToString (v : JSValue) : jsstring :=
  match v with
  | VUndefined => u16 "undefined"
  | VNull => u16 "null"
  | VBool true => u16 "true"
  | VBool false => u16 "false"
  | VNum x => NumberToString host x
  | VStr s => s
  end.

(** ** Retrieval: from raw hits to expenses (lines 112-124) *)

(** The metadata object stored with a vector; an absent key reads as
    [VUndefined]. *)
Record Metadata := {
  md_text : JSValue;
  md_note : JSValue;
  md_amount : JSValue;
  md_date : JSValue;
}.

Record Expense := {
  note : JSValue;
  amount : float;
  date : JSValue;
}.

(** The answer of [collection.query]: [metadatas] is [None] when the field
    is missing or is not an array, otherwise one list of hits per query
    embedding. *)
Record QueryResult := {
  metadatas : option (list (list Metadata));
}.

(** The body of the [forEach] callback. *)
Definition push_valid (expenses : list Expense) (m : Metadata) : list Expense :=
  let amt := ToNumber (md_amount m) in
  if negb (js_isNaN amt)
  then expenses ++ [ {| note := md_note m; amount := amt; date := md_date m |} ]
  else expenses.

(** The hits after [results.metadatas.flat()]. *)
Definition raw_hits (results : option QueryResult) : list Metadata :=
  match results with
  | Some r => match metadatas r with Some mds => concat mds | None => [] end
  | None => []
  end.

Definition collect_expenses (results : option QueryResult) : list Expense :=
  fold_left push_valid (raw_hits results) [].

(** ** Aggregation (lines 129-135) *)

Record Aggregate := {
  total : float;
  monthMap : gmap jsstring float;
}.

(** [monthMap[month] || 0]: a missing key reads as [undefined], and a falsy
    number ([0], [-0], [NaN]) is replaced as well. *)
Definition or_zero (v : option float) : float :=
  match v with
  | Some x => if truthy_num x then x else PrimFloat.zero
  | None => PrimFloat.zero
  end.

(** The body of the second [forEach] callback. The labels are outputs of
    the date formatter, never names of [Object.prototype] members, so that
    the object literal behaves as a finite map. *)
Definition add_expense (acc : Aggregate) (exp : Expense) : Aggregate :=
  let month := monthLabel host (date exp) in
  {| total := PrimFloat.add (total acc) (amount exp);
     monthMap :=
       <[ month := PrimFloat.add (or_zero (monthMap acc !! month)) (amount exp) ]>
         (monthMap acc) |}.

Definition aggregate (expenses : list Expense) : Aggregate :=
  fold_left add_expense expenses {| total := PrimFloat.zero; monthMap := ∅ |}.

(** ** Trend sentence (lines 137-144) *)

(** [Object.keys(monthMap).sort()]. The keys are distinct, so the sorted
    array does not depend on the order in which they are enumerated. *)
Definition sorted_months (mm : gmap jsstring float) : list jsstring :=
  js_sort (map_to_list mm).*1.

(** [months[i]], used as a property key and inside a template literal:
    out of range it reads as [undefined]. *)
Definition month_at (months : list jsstring) (i : nat) : jsstring :=
  default (u16 "undefined") (months !! i).

(** [monthMap[k]] as an operand of a subtraction. *)
Definition spend_of (mm : gmap jsstring float) (k : jsstring) : float :=
  default PrimFloat.nan (mm !! k).

(** The template literal of line 143. *)
Definition trend_sentence (lastMonth thisMonth : jsstring) (diff : float) : jsstring :=
  u16 "Compared to " ++ lastMonth ++ u16 ", your spending in " ++ thisMonth
  ++ u16 " is " ++ (if PrimFloat.leb PrimFloat.zero diff then u16 "higher" else u16 "lower")
  ++ u16 " by $" ++ toFixed 2 (PrimFloat.abs diff) ++ u16 ".".

Definition trendSummary (mm : gmap jsstring float) : jsstring :=
  let months := sorted_months mm in
  if (2 <=? length months)%nat then
    let lastMonth := month_at months (length months - 2) in
    let thisMonth := month_at months (length months - 1) in
    let diff := PrimFloat.sub (spend_of mm thisMonth) (spend_of mm lastMonth) in
    trend_sentence lastMonth thisMonth diff
  else [].

(** ** Context and prompts (lines 146-165, 176) *)

Definition nl : jsstring := [10].

Definition expense_line (e : Expense) : jsstring :=
  u16 "- " ++ ToString (note e) ++ u16 ": $" ++ NumberToString host (amount e)
  ++ u16 " on " ++ ToString (date e).

Definition structuredContext (expenses : list Expense) : jsstring :=
  let agg := aggregate expenses in
  nl ++ u16 "Top expenses:" ++ nl
  ++ join nl (map expense_line expenses) ++ nl
  ++ nl
  ++ u16 "Total spending: $" ++ toFixed 2 (total agg) ++ nl
  ++ trendSummary (monthMap agg) ++ nl.

Definition prompt_head : jsstring :=
  nl ++ u16 "You are Spendr, a friendly personal finance AI assistant." ++ nl
  ++ u16 "Here is a summary of some recent expenses:" ++ nl
  ++ nl.

Definition prompt_tail : jsstring :=
  nl
  ++ nl
  ++ u16 "Please provide a clear, warm, and helpful insight, including:" ++ nl
  ++ u16 "- Notable spending patterns" ++ nl
  ++ u16 "- Month-over-month trend (if available)" ++ nl
  ++ u16 "- 1-2 actionable suggestions to improve spending" ++ nl.

Definition prompt (context : jsstring) : jsstring :=
  prompt_head ++ context ++ prompt_tail.

Definition simple_head : jsstring :=
  u16 "Write a short, friendly summary of these expenses:" ++ nl.

Definition simplePrompt (context : jsstring) : jsstring :=
  simple_head ++ context.

(** ** Validation of the generated text (lines 171-182) *)

(** An answer of the generator: a nullish value, or a message whose
    [content] is a string or is nullish. *)
Inductive Response :=
| RNullish
| RMessage (content : option jsstring).

(** [response?.content?.trim()]: [None] stands for [undefined]. *)
Definition content_trim (r : Response) : option jsstring :=
  match r with
  | RMessage (Some s) => Some (trim s)
  | _ => None
  end.

(** [v || fallback] for an optional string: the empty string is falsy. *)
Definition or_else (v : option jsstring) (fallback : jsstring) : jsstring :=
  match v with
  | Some (c :: s) => c :: s
  | _ => fallback
  end.

(** [insight.replace(/<s>|\[OUT\]/g, "").trim()]. *)
Definition clean (insight : jsstring) : jsstring := trim (strip_markers insight).

(** [!insight || insight.length < 10]. *)
Definition degenerate (insight : jsstring) : bool :=
  match insight with
  | [] => true
  | _ => (length insight <? 10)%nat
  end.

Definition no_expenses_sentinel : jsstring :=
  [0x26A0; 0xFE0F] ++ u16 " No valid expenses found for the query.".

Definition no_insight_sentinel : jsstring :=
  [0x26A0; 0xFE0F] ++ u16 " The model didn" ++ [0x2019]
  ++ u16 "t return meaningful insights.".

End WithHost.

(** ** The service's calls to the outside *)

(** A row of [SELECT id, note, amount, expense_date FROM expenses]. *)
Record Row := {
  row_id : JSValue;
  row_note : JSValue;
  row_amount : JSValue;
  row_expense_date : JSValue;
}.

(** What [embedPipeline(text, ...)] resolves to: an array of vectors, a
    tensor with a [data] buffer, [null], [undefined], or anything else. *)
Inductive EmbedOutput :=
| EOArray (items : list (list float))
| EOTensor (data : list float)
| EONull
| EOUndefined
| EOOther.

(** What [getEmbedding] resolves to: [None] is [undefined], the first
    element of an empty array. *)
Abbreviation Embedding := (option (list float)).

Record Message := {
  role : jsstring;
  content : jsstring;
}.

(** A thrown [Error]: only its [message] is ever read. *)
Record JSError := {
  err_message : JSValue;
}.

Inductive Outcome (A : Type) :=
| Returned (a : A)
| Thrown (e : JSError).

Arguments Returned {A} a.
Arguments Thrown {A} e.

Definition is_returned {A} (o : Outcome A) : bool :=
  match o with Returned _ => true | Thrown _ => false end.

Inductive Call :=
| CPipeline
| CEmbedPipeline (text : JSValue)
| CCreateCollection
| CGetCollection
| CNewChatModel
| CPoolQuery (sql : jsstring)
| CCollectionAdd (id : jsstring) (embedding : Embedding) (metadata : Metadata)
| CCollectionQuery (queryEmbedding : Embedding) (nResults : nat)
| CModelInvoke (messages : list Message)
| CConsoleLog (args : list JSValue)
| CConsoleError (args : list JSValue).

(** A call that was made, and whether it returned ([ev_ok]) or threw. *)
Record Event := {
  ev_call : Call;
  ev_ok : bool;
}.

(** The collaborators. Each field gives the outcome of a call as a function
    of the calls made before it, which covers any deterministic behaviour of
    the backing service, faults included. *)
Record Services := {
  sv_pipeline : list Event -> Outcome unit;
  sv_embedPipeline : list Event -> JSValue -> Outcome EmbedOutput;
  sv_createCollection : list Event -> Outcome unit;
  sv_getCollection : list Event -> Outcome unit;
  sv_newChatModel : list Event -> Outcome unit;
  sv_poolQuery : list Event -> jsstring -> Outcome (list Row);
  sv_collectionAdd : list Event -> jsstring -> Embedding -> Metadata -> Outcome unit;
  sv_collectionQuery : list Event -> Embedding -> nat -> Outcome (option QueryResult);
  sv_modelInvoke : list Event -> list Message -> Outcome Response;
}.

(** The module-level variables ([embedPipeline], [collection], [model]:
    whether each has been assigned) and the calls made so far, oldest
    first. *)
Record State := {
  embedPipeline : bool;
  collection : bool;
  model : bool;
  history : list Event;
}.

(** ** A state and exception monad *)

Definition M (A : Type) : Type := State -> Outcome A * State.

Definition ret {A} (a : A) : M A := fun st => (Returned a, st).

Definition bind {A B} (m : M A) (k : A -> M B) : M B := fun st =>
  match m st with
  | (Returned a, st') => k a st'
  | (Thrown e, st') => (Thrown e, st')
  end.

Notation "'let*' x ':=' m 'in' k" := (bind m (fun x => k))
  (at level 10, x name, m at level 100, k at level 200).

Notation "m '>>' k" := (bind m (fun _ => k))
  (at level 100, k at level 200, right associativity).

Definition throw {A} (e : JSError) : M A := fun st => (Thrown e, st).

(** [try { body } catch (e) { handler e }]. *)
Definition try_catch {A} (body : M A) (handler : JSError -> M A) : M A :=
  fun st =>
    match body st with
    | (Thrown e, st') => handler e st'
    | r => r
    end.

Definition gets {A} (f : State -> A) : M A := fun st => (Returned (f st), st).

Definition modify (f : State -> State) : M unit := fun st => (Returned tt, f st).

Definition record_event (c : Call) (ok : bool) (st : State) : State :=
  {| embedPipeline := embedPipeline st;
     collection := collection st;
     model := model st;
     history := history st ++ [ {| ev_call := c; ev_ok := ok |} ] |}.

(** An awaited call to a collaborator: its outcome is the service's answer
    at the current history, and the call joins the history. *)
Definition call {A} (c : Call) (answer : list Event -> Outcome A) : M A :=
  fun st =>
    let o := answer (history st) in
    (o, record_event c (is_returned o) st).

(** [for (const x of xs) { body x }]. *)
Fixpoint for_each {A} (xs : list A) (body : A -> M unit) : M unit :=
  match xs with
  | [] => ret tt
  | x :: rest => body x >> for_each rest body
  end.

Definition set_embedPipeline (st : State) : State :=
  {| embedPipeline := true; collection := collection st; model := model st;
     history := history st |}.

Definition set_collection (st : State) : State :=
  {| embedPipeline := embedPipeline st; collection := true; model := model st;
     history := history st |}.

Definition set_model (st : State) : State :=
  {| embedPipeline := embedPipeline st; collection := collection st; model := true;
     history := history st |}.

(** The value a call of [buildEmbeddings] evaluates to: [undefined], or a
    plain object with data properties. *)
Inductive ReturnValue :=
| RetUndefined
| RetObject (fields : list (jsstring * JSValue)).

Section Programs.

Context (host : Host) (svc : Services).

Definition console_log (args : list JSValue) : M unit :=
  call (CConsoleLog args) (fun _ => Returned tt).

Definition console_error (args : list JSValue) : M unit :=
  call (CConsoleError args) (fun _ => Returned tt).

(** Lines 25-33. *)
Definition initEmbed : M unit :=
  let* ready := gets embedPipeline in
  if ready then ret tt
  else call CPipeline (sv_pipeline svc) >> modify set_embedPipeline.

(** Lines 35-41. *)
Definition getEmbedding (text : JSValue) : M Embedding :=
  initEmbed >>
  let* output := call (CEmbedPipeline text) (fun h => sv_embedPipeline svc h text) in
  match output with
  | EOArray items => ret (head items)
  | EOTensor data => ret (Some data)
  | EONull =>
      throw {| err_message :=
                 VStr (u16 "Cannot read properties of null (reading 'data')") |}
  | EOUndefined =>
      throw {| err_message :=
                 VStr (u16 "Cannot read properties of undefined (reading 'data')") |}
  | EOOther =>
      throw {| err_message := VStr (u16 "Unexpected embedding output format") |}
  end.

(** Lines 44-64. *)
Definition initRAG : M unit :=
  let* c := gets collection in
  (if c then ret tt
   else
     try_catch (call CCreateCollection (sv_createCollection svc))
       (fun e =>
          console_log
            [VStr ([0x2139; 0xFE0F] ++ u16 " Collection may already exist:");
             err_message e]) >>
     call CGetCollection (sv_getCollection svc) >>
     modify set_collection >>
     console_log [VStr ([0x2705] ++ u16 " Chroma collection ready")]) >>
  let* m := gets model in
  if m then ret tt
  else
    call CNewChatModel (sv_newChatModel svc) >>
    modify set_model >>
    console_log [VStr ([0x2705] ++ u16 " Mistral 7B (via OpenRouter) initialized")].

(** [v.toString()]: a [TypeError] on [undefined] and [null], whose message
    is the engine's. *)
Definition toString_method (v : JSValue) : M jsstring :=
  match v with
  | VUndefined | VNull =>
      throw {| err_message :=
                 VStr (u16 "Cannot read properties of " ++ ToString host v
                       ++ u16 " (reading 'toString')") |}
  | _ => ret (ToString host v)
  end.

(** The template literal of lines 77 and 85. *)
Definition describe (exp : Row) : jsstring :=
  u16 "Expense: " ++ ToString host (row_note exp)
  ++ u16 ", Amount: $" ++ ToString host (row_amount exp)
  ++ u16 ", Date: " ++ ToString host (row_expense_date exp).

Definition metadata_of (exp : Row) : Metadata :=
  {| md_text := VStr (describe exp);
     md_note := row_note exp;
     md_amount := VNum (ToNumber host (row_amount exp));
     md_date := row_expense_date exp |}.

(** The [try] block of lines 76-92. *)
Definition embed_row (exp : Row) : M unit :=
  let desc := describe exp in
  let* vector := getEmbedding (VStr desc) in
  let* id := toString_method (row_id exp) in
  call (CCollectionAdd id vector (metadata_of exp))
       (fun h => sv_collectionAdd svc h id vector (metadata_of exp)).

(** The arguments of [console.error] in the [catch] block, line 94. *)
Definition failure_report (exp : Row) (err : JSError) : list JSValue :=
  [VStr ([0x26A0; 0xFE0F] ++ u16 " Failed to embed expense ID "
         ++ ToString host (row_id exp) ++ u16 ":");
   err_message err].

(** One iteration of the loop of lines 75-96. *)
Definition ingest_row (exp : Row) : M unit :=
  try_catch (embed_row exp) (fun err => console_error (failure_report exp err)).

Definition select_expenses : jsstring :=
  u16 "SELECT id, note, amount, expense_date FROM expenses".

(** Lines 67-99. The function has no [return] statement. *)
Definition buildEmbeddings : M ReturnValue :=
  initRAG >>
  let* expenses := call (CPoolQuery select_expenses)
                  (fun h => sv_poolQuery svc h select_expenses) in
  console_log
    [VStr ([0xD83E; 0xDDFE] ++ u16 " Found "
           ++ decimal (N.of_nat (length expenses)) ++ u16 " expenses to embed...")] >>
  for_each expenses ingest_row >>
  console_log [VStr ([0x2705] ++ u16 " Expense embeddings stored in Chroma!")] >>
  ret RetUndefined.

(** Lines 103-124: the expenses retrieved for a query. *)
Definition retrieve (userQuery : JSValue) : M (list Expense) :=
  initRAG >>
  let* queryVec := getEmbedding userQuery in
  let* results := call (CCollectionQuery queryVec 3)
                 (fun h => sv_collectionQuery svc h queryVec 3) in
  ret (collect_expenses host results).

Definition user_message (text : jsstring) : list Message :=
  [ {| role := u16 "user"; content := text |} ].

Definition invoke (messages : list Message) : M Response :=
  call (CModelInvoke messages) (fun h => sv_modelInvoke svc h messages).

(** Lines 175-180: the retry. *)
Definition retry (context insight : jsstring) : M jsstring :=
  if degenerate insight then
    let* retryResp := invoke (user_message (simplePrompt context)) in
    ret (clean (or_else (content_trim retryResp) insight))
  else ret insight.

(** Lines 128-182: from a non-empty list of expenses to the insight. *)
Definition generate (expenses : list Expense) : M jsstring :=
  let context := structuredContext host expenses in
  let* response := invoke (user_message (prompt context)) in
  let insight := clean (or_else (content_trim response) []) in
  let* insight := retry context insight in
  ret (or_else (Some insight) no_insight_sentinel).

(** Lines 102-183. *)
Definition queryInsights (userQuery : JSValue) : M jsstring :=
  let* expenses := retrieve userQuery in
  if (length expenses =? 0)%nat then ret no_expenses_sentinel
  else generate expenses.

End Programs.

(** ** Observations on a history *)

(** The messages passed to the generator, in order. *)
Definition invocations (h : list Event) : list (list Message) :=
  omap (fun ev => match ev_call ev with CModelInvoke msgs => Some msgs | _ => None end) h.

(** The ids whose [collection.add] returned. *)
Definition indexed_ids (h : list Event) : list jsstring :=
  omap (fun ev => match ev_call ev with
                  | CCollectionAdd id _ _ => if ev_ok ev then Some id else None
                  | _ => None
                  end) h.

(** The argument lists written with [console.error]. *)
Definition error_reports (h : list Event) : list (list JSValue) :=
  omap (fun ev => match ev_call ev with CConsoleError args => Some args | _ => None end) h.

(** What the loop of [buildEmbeddings] leaves behind for a row: an
    acknowledged [collection.add], or a report on the error console. *)
Inductive RowResult :=
| Indexed (id : jsstring)
| Reported (args : list JSValue).

Definition row_results (h : list Event) : list RowResult :=
  omap (fun ev => match ev_call ev with
                  | CCollectionAdd id _ _ => if ev_ok ev then Some (Indexed id) else None
                  | CConsoleError args => Some (Reported args)
                  | _ => None
                  end) h.

(** Calls to the generator. *)
Definition generation_call (ev : Event) : bool :=
  match ev_call ev with CModelInvoke _ => true | _ => false end.

(** Calls that [row_results] observes. *)
Definition row_call (ev : Event) : bool :=
  match ev_call ev with
  | CCollectionAdd _ _ _ | CConsoleError _ => true
  | _ => false
  end.

(** Calls made by [getEmbedding]. *)
Definition embedding_call (ev : Event) : bool :=
  match ev_call ev with CPipeline | CEmbedPipeline _ => true | _ => false end.

(** Calls made before the generation phase of [queryInsights]. *)
Definition retrieval_call (ev : Event) : bool :=
  match ev_call ev with
  | CPipeline | CEmbedPipeline _ | CCreateCollection | CGetCollection
  | CNewChatModel | CConsoleLog _ | CCollectionQuery _ _ => true
  | _ => false
  end.

(** ** Notions used in the statements *)

(** A computation only appends to the history, and only calls of kind
    [Q]. *)
Definition emits_only {A} (Q : Event -> bool) (m : M A) : Prop :=
  ∀ st o st', m st = (o, st') →
    ∃ new, history st' = history st ++ new ∧ forallb Q new = true.

(** The result left behind for a row names that row: the id under which it
    was added, or the report that carries its id. *)
Definition row_accounted (host : Host) (exp : Row) (r : RowResult) : Prop :=
  match r with
  | Indexed id => id = ToString host (row_id exp)
  | Reported args => ∃ err, args = failure_report host exp err
  end.

(** A generator call with its outcome. *)
Definition invoked (text : jsstring) (ok : bool) : Event :=
  {| ev_call := CModelInvoke (user_message text); ev_ok := ok |}.

(** The value stored under a month key once [amounts] have been added to
    it one after the other, from the stored value [v] (line 134). *)
Definition month_value_from (v : option float) (amounts : list float) : option float :=
  fold_left (fun o a => Some (PrimFloat.add (or_zero o) a)) amounts v.

(** No running sum of [amounts], started from [s], is [NaN]. *)
Fixpoint no_nan_from (s : float) (amounts : list float) : bool :=
  negb (js_isNaN s)
  && match amounts with
     | [] => true
     | a :: rest => no_nan_from (PrimFloat.add s a) rest
     end.

(** A stored value stands for the sum [s]: an absent key for zero, a number
    for a sum that is the same value, the sign of a zero apart. *)
Definition agrees (o : option float) (s : float) : Prop :=
  match o with
  | Some v => same_value_zero v s = true
  | None => s = PrimFloat.zero
  end.

(** ** The statements of the specification, in its own words *)

(** "total = sum of all RetrievedExpense amounts", and per month "sum per
    group": the sum of a list of numbers, left to right from zero. *)
Definition sum_amounts (amounts : list float) : float :=
  fold_left PrimFloat.add amounts PrimFloat.zero.

(** The amounts of the expenses whose date maps to [label], in order. *)
Definition month_amounts (host : Host) (label : jsstring) (expenses : list Expense)
  : list float :=
  map amount (filter (fun e => monthLabel host (date e) = label) expenses).

(** "any hit whose amount fails numeric coercion": the coercion is [NaN]. *)
Definition corrupt_hit (host : Host) (m : Metadata) : bool :=
  js_isNaN (ToNumber host (md_amount m)).

(** "amount is coerced to a numeric type": the expense a hit stands for. *)
Definition expense_of (host : Host) (m : Metadata) : Expense :=
  {| note := md_note m; amount := ToNumber host (md_amount m); date := md_date m |}.

(** "distinct month-labels present among retrieved hits". *)
Definition month_labels (host : Host) (expenses : list Expense) : gset jsstring :=
  list_to_set (map (fun e => monthLabel host (date e)) expenses).


(** "apply the same stripping/trim [to the retry], and prefer the retry's
    result if non-empty, else keep the original (possibly still-empty)
    result", then "if the result is still empty, return the sentinel". *)
Definition claimed_final (primary retried : Response) : jsstring :=
  let original := clean (or_else (content_trim primary) []) in
  let retry_result := clean (or_else (content_trim retried) []) in
  let result := match retry_result with [] => original | _ => retry_result end in
  match result with [] => no_insight_sentinel | _ => result end.

(** "run() -> {embedded: count, failed: count}". *)
Definition claimed_counts (embedded failed : float) : ReturnValue :=
  RetObject [(u16 "embedded", VNum embedded); (u16 "failed", VNum failed)].


(** ** A host and collaborators for the scenarios *)

Definition digit_value (c : N) : option N :=
  if (48 <=? c) && (c <=? 57) then Some (c - 48) else None.

Fixpoint digits_value (s : jsstring) (acc : N) : option N :=
  match s with
  | [] => Some acc
  | c :: t =>
      match digit_value c with
      | Some d => digits_value t (10 * acc + d)
      | None => None
      end
  end.

Fixpoint leading_digits (s : jsstring) : jsstring :=
  match s with
  | c :: t => if (48 <=? c) && (c <=? 57) then c :: leading_digits t else []
  | [] => []
  end.

Definition month_names : list jsstring :=
  [u16 "January"; u16 "February"; u16 "March"; u16 "April"; u16 "May";
   u16 "June"; u16 "July"; u16 "August"; u16 "September"; u16 "October";
   u16 "November"; u16 "December"].

Definition days_in_month (y m : N) : N :=
  if m =? 2 then
    if ((y mod 4 =? 0) && negb (y mod 100 =? 0)) || (y mod 400 =? 0) then 29 else 28
  else if (m =? 4) || (m =? 6) || (m =? 9) || (m =? 11) then 30
  else 31.

(** The month label on an en-US host in UTC, for the date-only form
    [YYYY-MM-DD] of the scenarios; any other input is given the label of an
    invalid date. *)
Definition iso_month_label (v : JSValue) : jsstring :=
  match v with
  | VStr s =>
      match digits_value (take 4 s) 0, digits_value (take 2 (drop 5 s)) 0,
            digits_value (drop 8 s) 0 with
      | Some y, Some m, Some d =>
          if (length s =? 10)%nat
             && bool_decide (s !! 4%nat = Some 45) && bool_decide (s !! 7%nat = Some 45)
             && (1 <=? m) && (m <=? 12) && (1 <=? d) && (d <=? days_in_month y m)
          then month_at month_names (N.to_nat m - 1) ++ u16 " " ++ decimal y
          else u16 "Invalid Date"
      | _, _, _ => u16 "Invalid Date"
      end
  | _ => u16 "Invalid Date"
  end.

(** Number printing for the scenarios: exact on the integers and the
    half-integers below [2^53] in magnitude, on zero, [NaN] and the
    infinities; the other numbers, which the scenarios do not print, are
    given their two-decimal rendering. *)
Definition print_number (x : float) : jsstring :=
  match Prim2SF x with
  | S754_nan => u16 "NaN"
  | S754_infinity false => u16 "Infinity"
  | S754_infinity true => u16 "-Infinity"
  | S754_zero _ => u16 "0"
  | S754_finite s m e =>
      let twice := if (0 <=? e)%Z then (Zpos m * 2 ^ (e + 1))%Z
                   else (Zpos m * 2 / 2 ^ (- e))%Z in
      let exact := if (0 <=? e)%Z then true
                   else (Zpos m * 2 mod 2 ^ (- e) =? 0)%Z in
      (if s then u16 "-" else []) ++
      (if exact && (twice <? 2 ^ 54)%Z then
         decimal (Z.to_N (twice / 2)) ++ (if Z.even twice then [] else u16 ".5")
       else fixed_digits 2 (fixed_n 2 m e))
  end.

(** Number parsing for the scenarios: exact on [Infinity], on the empty
    string and on the decimal literals without exponent ([12], [4.50],
    [5.], [.5]) of at most fifteen fraction digits whose digits read as an
    integer below [2^53], optionally signed and surrounded by white space.
    Text that is no numeric literal is [NaN]; so are, here, the literals
    with an exponent or a radix prefix and the longer ones, which the
    scenarios do not use. *)
Definition parse_unsigned (s : jsstring) : float :=
  if bool_decide (s = u16 "Infinity") then PrimFloat.infinity
  else
    let int_part := leading_digits s in
    let rest := drop (length int_part) s in
    let frac_part := match rest with 46 :: f => f | _ => [] end in
    let shape_ok := match rest with
                    | [] => negb (bool_decide (int_part = []))
                    | 46 :: f => negb (bool_decide (int_part ++ f = []))
                    | _ => false
                    end in
    match digits_value (int_part ++ frac_part) 0 with
    | Some n =>
        if shape_ok && (n <? 2 ^ 53) && (length frac_part <=? 15)%nat then
          PrimFloat.div (PrimFloat.of_uint63 (Uint63.of_Z (Z.of_N n)))
                        (PrimFloat.of_uint63 (Uint63.of_Z (10 ^ Z.of_nat (length frac_part))))
        else PrimFloat.nan
    | None => PrimFloat.nan
    end.

Definition parse_number (s : jsstring) : float :=
  match trim s with
  | [] => PrimFloat.zero
  | 45 :: t => PrimFloat.opp (parse_unsigned t)
  | 43 :: t => parse_unsigned t
  | t => parse_unsigned t
  end.

Definition sample_host : Host :=
  {| StringToNumber := parse_number;
     NumberToString := print_number;
     monthLabel := iso_month_label |}.

(** Whether [v] is the string [s]. *)
Definition is_text (s : jsstring) (v : JSValue) : bool :=
  match v with
  | VStr t => bool_decide (t = s)
  | _ => false
  end.

(** The error a collaborator throws. *)
Definition service_fault (what : string) : JSError :=
  {| err_message := VStr (u16 what) |}.

(** Collaborators that always answer: the store holds [rows], the embedding
    runtime throws on the texts selected by [embed_fails], the index
    returns [hits] for every query, and the generator gives the [n]-th of
    [answers] to its [n]-th call. *)
Definition scripted (rows : list Row) (embed_fails : JSValue -> bool)
    (hits : list Metadata) (answers : list (Outcome Response)) : Services :=
  {| sv_pipeline := fun _ => Returned tt;
     sv_embedPipeline := fun _ text =>
       if embed_fails text then Thrown (service_fault "embedding failed")
       else Returned (EOTensor [PrimFloat.one]);
     sv_createCollection := fun _ => Returned tt;
     sv_getCollection := fun _ => Returned tt;
     sv_newChatModel := fun _ => Returned tt;
     sv_poolQuery := fun _ _ => Returned rows;
     sv_collectionAdd := fun _ _ _ _ => Returned tt;
     sv_collectionQuery := fun _ _ _ => Returned (Some {| metadatas := Some [hits] |});
     sv_modelInvoke := fun h _ =>
       nth (length (invocations h)) answers (Returned RNullish) |}.

(** The module as loaded: nothing initialised, nothing called. *)
Definition fresh : State :=
  {| embedPipeline := false; collection := false; model := false; history := [] |}.

Definition coffee (amt : float) (d : string) : Expense :=
  {| note := VStr (u16 "Coffee"); amount := amt; date := VStr (u16 d) |}.

(** The two hits of the concrete aggregation scenario. *)
Definition coffee_expenses : list Expense :=
  [coffee 4.5 "2024-01-05"; coffee 5 "2024-02-03"].

Definition coffee_hit (amt : JSValue) (d : string) : Metadata :=
  {| md_text := VUndefined; md_note := VStr (u16 "Coffee"); md_amount := amt;
     md_date := VStr (u16 d) |}.

Definition coffee_hits : list Metadata :=
  [coffee_hit (VNum 4.5) "2024-01-05"; coffee_hit (VNum 5) "2024-02-03"].

(** Hits none of which has a numeric amount. *)
Definition corrupt_hits : list Metadata :=
  [coffee_hit (VStr (u16 "four")) "2024-01-05"; coffee_hit VUndefined "2024-02-03"].

(** An answer of the generator whose content is [text]. *)
Definition says (text : string) : Outcome Response :=
  Returned (RMessage (Some (u16 text))).

Definition expense_row (id amt d : string) : Row :=
  {| row_id := VStr (u16 id); row_note := VStr (u16 "Coffee");
     row_amount := VStr (u16 amt); row_expense_date := VStr (u16 d) |}.

(** Five records; the third is the one whose embedding throws. *)
Definition five_rows : list Row :=
  [expense_row "1" "4.50" "2024-01-05"; expense_row "2" "5.00" "2024-02-03";
   expense_row "3" "12.00" "2024-02-10"; expense_row "4" "7.25" "2024-03-01";
   expense_row "5" "3.00" "2024-03-02"].

Definition third_row_text : jsstring :=
  u16 "Expense: Coffee, Amount: $12.00, Date: 2024-02-10".

Definition five_rows_services : Services :=
  scripted five_rows (is_text third_row_text) [] [].

Definition third_row : Row := expense_row "3" "12.00" "2024-02-10".

(** The index answers with the two coffee hits; the generator says "Hello"
    first and echoes a bare marker when asked again. *)
Definition marker_retry_services : Services :=
  scripted [] (fun _ => false) coffee_hits [says "Hello"; says "<s>"].

Definition hello : Response := RMessage (Some (u16 "Hello")).

Definition bare_marker : Response := RMessage (Some (u16 "<s>")).


(** The index answers with hits that have no numeric amount. *)
Definition corrupt_hits_services : Services :=
  scripted [] (fun _ => false) corrupt_hits [says "never asked"].

Definition coffee_query : JSValue := VStr (u16 "How much do I spend on coffee?").

(** Two expenses of one month, and two of equal amounts a month apart. *)
Definition same_month_expenses : list Expense :=
  [coffee 4.5 "2024-01-05"; coffee 5 "2024-01-20"].

Definition equal_spend_expenses : list Expense :=
  [coffee 4.5 "2024-01-05"; coffee 4.5 "2024-02-03"].



(** ** Further observations on a history *)

(** The texts sent to the embedding runtime, in order. *)
Definition embed_requests (h : list Event) : list JSValue :=
  omap (fun ev => match ev_call ev with CEmbedPipeline t => Some t | _ => None end) h.

(** The numbers of neighbours asked of the index, in order. *)
Definition query_sizes (h : list Event) : list nat :=
  omap (fun ev => match ev_call ev with CCollectionQuery _ n => Some n | _ => None end) h.

(** The calls [queryInsights] may make: initialisation, embedding, a query
    of the index for three neighbours, generation, and [console.log]. *)
Definition insight_call (ev : Event) : bool :=
  match ev_call ev with
  | CPipeline | CEmbedPipeline _ | CCreateCollection | CGetCollection
  | CNewChatModel | CConsoleLog _ | CModelInvoke _ => true
  | CCollectionQuery _ n => (n =? 3)%nat
  | _ => false
  end.

(** The calls [buildEmbeddings] may make: all but a query of the index and
    a call of the generator. *)
Definition ingestion_call (ev : Event) : bool :=
  match ev_call ev with
  | CCollectionQuery _ _ | CModelInvoke _ => false
  | _ => true
  end.

(** Calls made by [initRAG]. *)
Definition setup_call (ev : Event) : bool :=
  match ev_call ev with
  | CCreateCollection | CGetCollection | CNewChatModel | CConsoleLog _ => true
  | _ => false
  end.

(** A computation never clears a module-level variable that is set. *)
Definition keeps_ready {A} (m : M A) : Prop :=
  ∀ st o st', m st = (o, st') →
    (embedPipeline st = true → embedPipeline st' = true)
    ∧ (collection st = true → collection st' = true)
    ∧ (model st = true → model st' = true).

(** A string neither starts nor ends with white space. *)
Definition no_outer_space (s : jsstring) : Prop :=
  (∀ c, head s = Some c → is_space c = false)
  ∧ (∀ c, last s = Some c → is_space c = false).

(** ** The HTTP layer (the server file) *)

(** What a handler sends with [res.send(text)]. *)
Inductive HttpReply :=
| ReplyText (body : jsstring).

Section Server.

Context (host : Host) (svc : Services).

(** [POST /ai/embed]: the handler awaits [buildEmbeddings], ignores its
    value and sends a fixed text. It has no [try]. *)
Definition post_ai_embed : M HttpReply :=
  buildEmbeddings host svc >>
  ret (ReplyText ([0x2705] ++ u16 " Embeddings built.")).

End Server.

(** ** More collaborators for the scenarios *)

(** Collaborators that answer every call the same way: the pipeline
    loader, the creation and the fetching of the collection, the row query
    and the index query answer as given; every text embeds; every addition
    is acknowledged; the generator always gives the same sentence. *)
Definition answering (pipeline create get : Outcome unit)
    (rows : Outcome (list Row)) (answer : Outcome (option QueryResult)) : Services :=
  {| sv_pipeline := fun _ => pipeline;
     sv_embedPipeline := fun _ _ => Returned (EOTensor [PrimFloat.one]);
     sv_createCollection := fun _ => create;
     sv_getCollection := fun _ => get;
     sv_newChatModel := fun _ => Returned tt;
     sv_poolQuery := fun _ _ => rows;
     sv_collectionAdd := fun _ _ _ _ => Returned tt;
     sv_collectionQuery := fun _ _ _ => answer;
     sv_modelInvoke := fun _ _ => says "You spend about five dollars a month on coffee." |}.

Definition succeeds : Outcome unit := Returned tt.

Definition coffee_answer : Outcome (option QueryResult) :=
  Returned (Some {| metadatas := Some [coffee_hits] |}).

(** The collection exists already; the index cannot be reached; the store
    cannot be read; the pipeline cannot be loaded; the index cannot be
    queried; the index answers [null]. *)
Definition collection_exists_services : Services :=
  answering succeeds (Thrown (service_fault "already exists")) succeeds
    (Returned five_rows) coffee_answer.

Definition no_index_services : Services :=
  answering succeeds succeeds (Thrown (service_fault "connection refused"))
    (Returned five_rows) coffee_answer.

Definition no_store_services : Services :=
  answering succeeds succeeds succeeds (Thrown (service_fault "store unavailable")) coffee_answer.

Definition no_pipeline_services : Services :=
  answering (Thrown (service_fault "model files missing")) succeeds succeeds
    (Returned five_rows) coffee_answer.

Definition no_query_services : Services :=
  answering succeeds succeeds succeeds (Returned five_rows) (Thrown (service_fault "query failed")).

Definition null_answer_services : Services :=
  answering succeeds succeeds succeeds (Returned five_rows) (Returned None).

(** The generator says "Hi" first and "OK then" when asked again. *)
Definition short_retry_services : Services :=
  scripted [] (fun _ => false) coffee_hits [says "Hi"; says "OK then"].

(** Two expenses of infinite amount, a month apart. *)
Definition infinite_months : list Expense :=
  [coffee PrimFloat.infinity "2024-01-05"; coffee PrimFloat.infinity "2024-02-03"].

(** The module with only the chat model created. *)
Definition chat_ready : State :=
  {| embedPipeline := false; collection := false; model := true; history := [] |}.

(** The module once everything is initialised. *)
Definition warm : State :=
  {| embedPipeline := true; collection := true; model := true; history := [] |}.

(** The acknowledged additions to the index: id and metadata, in order. *)
Definition added (h : list Event) : list (jsstring * Metadata) :=
  omap (fun ev => match ev_call ev with
                  | CCollectionAdd id _ md => if ev_ok ev then Some (id, md) else None
                  | _ => None
                  end) h.

(** What [buildEmbeddings] sends to the index for a row. *)
Definition index_entry (host : Host) (exp : Row) : jsstring * Metadata :=
  (ToString host (row_id exp), metadata_of host exp).

(** The expense a row stands for once indexed and retrieved. *)
Definition expense_of_row (host : Host) (exp : Row) : Expense :=
  {| note := row_note exp;
     amount := ToNumber host (row_amount exp);
     date := row_expense_date exp |}.

(** The code units that start a marker: [<] and [[]. *)
Definition marker_start (c : N) : bool := (c =? 60) || (c =? 91).

(** ** What becomes of a record during ingestion *)

(** Whether [v.toString()] can be called: [v] is neither [undefined] nor
    [null]. *)
Definition has_toString (v : JSValue) : bool :=
  match v with VUndefined | VNull => false | _ => true end.

(** The output of the runtime has one of the two shapes [getEmbedding]
    takes a vector from. *)
Definition is_vector (output : EmbedOutput) : bool :=
  match output with EOArray _ | EOTensor _ => true | _ => false end.

(** The runtime embeds [text] whenever it is asked to: the pipeline loads
    and its output is a vector. *)
Definition always_embeds (svc : Services) (text : JSValue) : Prop :=
  ∀ h, sv_pipeline svc h = Returned tt
       ∧ ∃ output, sv_embedPipeline svc h text = Returned output
                   ∧ is_vector output = true.

(** The runtime throws [err] whenever it is asked to embed [text]. *)
Definition never_embeds (svc : Services) (text : JSValue) (err : JSError) : Prop :=
  ∀ h, sv_pipeline svc h = Returned tt ∧ sv_embedPipeline svc h text = Thrown err.

(** The index acknowledges the addition of [md] under [id] whenever it is
    asked to, and throws [err] whenever it is asked to. *)
Definition always_adds (svc : Services) (id : jsstring) (md : Metadata) : Prop :=
  ∀ h vector, sv_collectionAdd svc h id vector md = Returned tt.

Definition never_adds (svc : Services) (id : jsstring) (md : Metadata) (err : JSError)
  : Prop :=
  ∀ h vector, sv_collectionAdd svc h id vector md = Thrown err.

(** A record succeeds: its description is embedded and its entry is
    acknowledged by the index. *)
Definition row_succeeds (host : Host) (svc : Services) (exp : Row) : Prop :=
  always_embeds svc (VStr (describe host exp))
  ∧ has_toString (row_id exp) = true
  ∧ always_adds svc (ToString host (row_id exp)) (metadata_of host exp).

(** A record fails with [err]: in its embedding, or in its upsert. *)
Definition row_fails (host : Host) (svc : Services) (exp : Row) (err : JSError) : Prop :=
  never_embeds svc (VStr (describe host exp)) err
  ∨ (always_embeds svc (VStr (describe host exp))
     ∧ has_toString (row_id exp) = true
     ∧ never_adds svc (ToString host (row_id exp)) (metadata_of host exp) err).

(** What a run of the loop settles for the record [exp], with the result
    [r] it leaves and the acknowledged additions [entries] of the run: the
    result names the record; an addition is the record's entry, id and
    metadata; a record that succeeds is added, and a record that fails is
    reported with its id and the error's message. *)
Definition row_settled (host : Host) (svc : Services)
    (entries : list (jsstring * Metadata)) (exp : Row) (r : RowResult) : Prop :=
  row_accounted host exp r
  ∧ (∀ id, r = Indexed id → index_entry host exp ∈ entries)
  ∧ (row_succeeds host svc exp → r = Indexed (ToString host (row_id exp)))
  ∧ (∀ err, row_fails host svc exp err → r = Reported (failure_report host exp err)).

Definition second_row : Row := expense_row "2" "5.00" "2024-02-03".

(** The index refuses the record whose id is ["2"]. *)
Definition second_row_refused_services : Services :=
  {| sv_pipeline := fun _ => Returned tt;
     sv_embedPipeline := fun _ _ => Returned (EOTensor [PrimFloat.one]);
     sv_createCollection := fun _ => Returned tt;
     sv_getCollection := fun _ => Returned tt;
     sv_newChatModel := fun _ => Returned tt;
     sv_poolQuery := fun _ _ => Returned five_rows;
     sv_collectionAdd := fun _ id _ _ =>
       if bool_decide (id = u16 "2") then Thrown (service_fault "upsert failed")
       else Returned tt;
     sv_collectionQuery := fun _ _ _ => Returned None;
     sv_modelInvoke := fun _ _ => Returned RNullish |}.

(** The index answers every query with the metadata of the first two of the
    five records. *)
Definition round_trip_services : Services :=
  scripted five_rows (is_text third_row_text)
    (map (metadata_of sample_host) (take 2 five_rows)) [].

(** * Properties *)

(** ** Numbers *)

Lemma Prim2SF_zero_cases (x : float) (s : bool) :
  Prim2SF x = S754_zero s → x = PrimFloat.zero ∨ x = PrimFloat.neg_zero.
Proof.
  intros H.
  assert (x = SF2Prim (S754_zero s)) as ->
    by (rewrite <- H; symmetry; apply SF2Prim_Prim2SF).
  destruct s; [right | left]; reflexivity.
Qed.

Lemma is_zero_cases (x : float) :
  PrimFloat.is_zero x = true → x = PrimFloat.zero ∨ x = PrimFloat.neg_zero.
Proof.
  unfold PrimFloat.is_zero. rewrite FloatAxioms.eqb_spec.
  change (Prim2SF PrimFloat.zero) with (S754_zero false).
  destruct (Prim2SF x) as [s | s | | s m e] eqn:E; try discriminate.
  - intros _. exact (Prim2SF_zero_cases x s E).
  - destruct s; discriminate.
  - destruct s; discriminate.
Qed.

(** [same_value_zero] is equality, the sign of zero apart. *)
Lemma SFeqb_refl_or_nan (x : spec_float) : SFeqb x x = true ∨ x = S754_nan.
Proof.
  destruct x as [s | s | | s m e]; unfold SFeqb; simpl; auto.
  - left. by destruct s.
  - left. destruct s; rewrite Z.compare_refl, Pos.compare_cont_refl; reflexivity.
Qed.

Lemma is_nan_Prim2SF (x : float) :
  PrimFloat.is_nan x = true → Prim2SF x = S754_nan.
Proof.
  unfold PrimFloat.is_nan. rewrite FloatAxioms.eqb_spec.
  destruct (SFeqb_refl_or_nan (Prim2SF x)) as [-> | H]; [discriminate | done].
Qed.

Lemma same_value_zero_refl (x : float) : same_value_zero x x = true.
Proof.
  unfold same_value_zero, PrimFloat.is_nan. by destruct (PrimFloat.eqb x x).
Qed.

Lemma SFeqb_cases (x y : spec_float) :
  SFeqb x y = true → x = y ∨ ∃ s t, x = S754_zero s ∧ y = S754_zero t.
Proof.
  unfold SFeqb.
  destruct x as [s | s | | s m e], y as [t | t | | t n f]; simpl; try discriminate;
    try (destruct s; discriminate); try (destruct t; discriminate).
  - right. eauto.
  - destruct s, t; try discriminate; by left.
  - destruct s, t; try discriminate;
      (destruct (Z.compare e f) eqn:Ez; try discriminate;
       destruct (Pos.compare_cont Eq m n) eqn:Em; try discriminate; intros _;
       apply Z.compare_eq in Ez; apply Pos.compare_eq in Em; left; by subst).
Qed.

Lemma is_zero_Prim2SF (x : float) (s : bool) :
  Prim2SF x = S754_zero s → PrimFloat.is_zero x = true.
Proof. intros [-> | ->]%Prim2SF_zero_cases; reflexivity. Qed.

Lemma same_value_zero_cases (x y : float) :
  same_value_zero x y = true →
  x = y ∨ (PrimFloat.is_zero x = true ∧ PrimFloat.is_zero y = true).
Proof.
  unfold same_value_zero. intros [H | [Hx Hy]%andb_prop]%orb_prop.
  - rewrite FloatAxioms.eqb_spec in H.
    destruct (SFeqb_cases _ _ H) as [Heq | (s & t & Hs & Ht)].
    + left. by apply Prim2SF_inj.
    + right. eauto using is_zero_Prim2SF.
  - left. apply Prim2SF_inj. by rewrite (is_nan_Prim2SF x), (is_nan_Prim2SF y).
Qed.

Lemma same_value_zero_zeros (x y : float) :
  PrimFloat.is_zero x = true → PrimFloat.is_zero y = true →
  same_value_zero x y = true.
Proof.
  intros [-> | ->]%is_zero_cases [-> | ->]%is_zero_cases; reflexivity.
Qed.

(** Adding to a zero of either sign gives the other operand, up to the sign
    of a zero result. *)
Lemma add_zero_l (z a : float) :
  PrimFloat.is_zero z = true →
  PrimFloat.add z a = a
  ∨ (PrimFloat.is_zero (PrimFloat.add z a) = true ∧ PrimFloat.is_zero a = true).
Proof.
  intros Hz.
  assert (∃ s, Prim2SF z = S754_zero s) as [s Hs]
    by (destruct (is_zero_cases z Hz) as [-> | ->]; eexists; reflexivity).
  pose proof (add_spec z a) as Hadd. rewrite Hs in Hadd.
  destruct (Prim2SF a) as [t | t | | t m e] eqn:Ea.
  - right. split; [| by eapply is_zero_Prim2SF].
    apply (is_zero_Prim2SF _ (if s then t else false)). rewrite Hadd.
    by destruct s, t.
  - left. apply Prim2SF_inj. by rewrite Hadd, Ea.
  - left. apply Prim2SF_inj. by rewrite Hadd, Ea.
  - left. apply Prim2SF_inj. by rewrite Hadd, Ea.
Qed.

Lemma same_value_zero_add (x y a : float) :
  same_value_zero x y = true →
  same_value_zero (PrimFloat.add x a) (PrimFloat.add y a) = true.
Proof.
  intros [-> | [Hx Hy]]%same_value_zero_cases; [apply same_value_zero_refl |].
  destruct (add_zero_l x a Hx) as [-> | [Hxa Ha]],
           (add_zero_l y a Hy) as [-> | [Hya Ha']].
  - apply same_value_zero_refl.
  - by apply same_value_zero_zeros.
  - by apply same_value_zero_zeros.
  - by apply same_value_zero_zeros.
Qed.

(** Equal finite numbers have a zero difference. *)
Lemma sub_equal_finite (x y : float) :
  PrimFloat.eqb x y = true → js_isFinite x = true →
  PrimFloat.is_zero (PrimFloat.sub x y) = true.
Proof.
  intros Heq Hfin.
  destruct (same_value_zero_cases x y) as [<- | [Hx Hy]].
  { unfold same_value_zero. by rewrite Heq. }
  - pose proof (sub_spec x x) as Hsub. unfold js_isFinite in Hfin.
    destruct (Prim2SF x) as [s | s | | s m e]; try discriminate.
    + apply (is_zero_Prim2SF _ false). rewrite Hsub. by destruct s.
    + apply (is_zero_Prim2SF _ false). rewrite Hsub.
      unfold SF64sub, SFsub. by rewrite Z.sub_diag.
  - destruct (is_zero_cases x Hx) as [-> | ->], (is_zero_cases y Hy) as [-> | ->];
      reflexivity.
Qed.

(** [v || 0] keeps the value of [v] unless [v] is [NaN]. *)
Lemma or_zero_same_value (v s : float) :
  same_value_zero v s = true → js_isNaN s = false →
  same_value_zero (or_zero (Some v)) s = true.
Proof.
  intros Hvs Hs. unfold or_zero, truthy_num.
  destruct (PrimFloat.is_zero v) eqn:Hz; simpl.
  - destruct (same_value_zero_cases _ _ Hvs) as [<- | [_ Hsz]];
      by apply same_value_zero_zeros.
  - destruct (PrimFloat.is_nan v) eqn:Hn; simpl; [| exact Hvs].
    destruct (same_value_zero_cases _ _ Hvs) as [<- | [Hvz _]]; unfold js_isNaN in Hs;
      congruence.
Qed.

(** The guarded running value follows the plain running sum as long as the
    latter is not [NaN]. *)
Lemma month_value_from_sum (amounts : list float) (o : option float) (s : float) :
  agrees o s → no_nan_from s amounts = true →
  agrees (month_value_from o amounts) (fold_left PrimFloat.add amounts s).
Proof.
  revert o s. induction amounts as [| a amounts IH]; intros o s Ho Hs; [exact Ho |].
  simpl in Hs. apply andb_prop in Hs as [Hs Hrest]. apply negb_true_iff in Hs.
  apply (IH (Some (PrimFloat.add (or_zero o) a))); [| exact Hrest].
  apply same_value_zero_add. destruct o as [v |].
  - by apply or_zero_same_value.
  - simpl in Ho. subst s. reflexivity.
Qed.

(** ** Strings *)

Lemma u16_cons_app (c : ascii) (s : string) (t : jsstring) :
  u16 (String c s) ++ t = N_of_ascii c :: (u16 s ++ t).
Proof. reflexivity. Qed.

Lemma trend_sentence_nonempty host a b d : trend_sentence host a b d ≠ [].
Proof. unfold trend_sentence. rewrite u16_cons_app. discriminate. Qed.

Lemma js_sort_length (l : list jsstring) : length (js_sort l) = length l.
Proof. unfold js_sort. apply Permutation_length, merge_sort_Permutation. Qed.

(** ** Retrieval *)

Section Retrieval.

Context (host : Host).

Lemma fold_push_valid (hits : list Metadata) (acc : list Expense) :
  fold_left (push_valid host) hits acc
  = acc ++ map (expense_of host) (filter (fun m => corrupt_hit host m = false) hits).
Proof.
  revert acc. induction hits as [| m hits IH]; intros acc; simpl.
  - by rewrite app_nil_r.
  - rewrite IH, filter_cons. unfold push_valid at 1.
    fold (corrupt_hit host m) (expense_of host m).
    destruct (corrupt_hit host m) eqn:E; simpl.
    + reflexivity.
    + by rewrite <- app_assoc.
Qed.

Lemma collect_expenses_filter (results : option QueryResult) :
  collect_expenses host results
  = map (expense_of host)
        (filter (fun m => corrupt_hit host m = false) (raw_hits results)).
Proof. unfold collect_expenses. by rewrite fold_push_valid. Qed.

Lemma filter_split_length (hits : list Metadata) :
  (length (filter (fun m => corrupt_hit host m = false) hits)
   + length (filter (fun m => corrupt_hit host m = true) hits) = length hits)%nat.
Proof.
  induction hits as [| m hits IH]; [reflexivity |].
  rewrite !filter_cons. destruct (corrupt_hit host m) eqn:E.
  - rewrite decide_False by discriminate. rewrite decide_True by reflexivity.
    simpl. lia.
  - rewrite decide_True by reflexivity. rewrite decide_False by discriminate.
    simpl. lia.
Qed.

(** C5. Every hit whose amount coerces to [NaN] is left out and nothing
    else is: the expenses are the non-corrupt hits, in order, each with the
    numeric coercion of its metadata amount; their number is the number of
    raw hits minus the number of corrupt ones; no kept amount is [NaN]. *)
Theorem C5_corrupt_hits_dropped (results : option QueryResult) :
  let hits := raw_hits results in
  let expenses := collect_expenses host results in
  expenses = map (expense_of host) (filter (fun m => corrupt_hit host m = false) hits)
  ∧ length expenses
    = (length hits - length (filter (fun m => corrupt_hit host m = true) hits))%nat
  ∧ Forall (fun e => js_isNaN (amount e) = false) expenses.
Proof.
  cbv zeta. rewrite collect_expenses_filter. split; [reflexivity |]. split.
  - rewrite length_map. pose proof (filter_split_length (raw_hits results)). lia.
  - apply Forall_forall. intros e He.
    apply list_elem_of_fmap in He as (m & -> & Hm).
    apply list_elem_of_filter in Hm as [Hm _]. exact Hm.
Qed.

End Retrieval.

(** ** Aggregation and trend *)

Section Aggregation.

Context (host : Host).

Lemma fold_add_expense_total (expenses : list Expense) (acc : Aggregate) :
  total (fold_left (add_expense host) expenses acc)
  = fold_left PrimFloat.add (map amount expenses) (total acc).
Proof.
  revert acc. induction expenses as [| e expenses IH]; intros acc; [reflexivity |].
  simpl. by rewrite IH.
Qed.

(** The total is the sum of the amounts, whatever they are. *)
Lemma aggregate_total (expenses : list Expense) :
  total (aggregate host expenses) = sum_amounts (map amount expenses).
Proof. unfold aggregate. by rewrite fold_add_expense_total. Qed.

Lemma fold_add_expense_dom (expenses : list Expense) (acc : Aggregate) :
  dom (monthMap (fold_left (add_expense host) expenses acc))
  = dom (monthMap acc) ∪ month_labels host expenses.
Proof.
  revert acc. induction expenses as [| e expenses IH]; intros acc.
  - unfold month_labels. simpl. set_solver.
  - simpl. rewrite IH. unfold month_labels. simpl. rewrite dom_insert_L. set_solver.
Qed.

(** The keys of the month map are the labels of the expenses. *)
Lemma aggregate_dom (expenses : list Expense) :
  dom (monthMap (aggregate host expenses)) = month_labels host expenses.
Proof. unfold aggregate. rewrite fold_add_expense_dom. simpl. set_solver. Qed.

(** What is stored under a label after a run of the loop is what the
    label's own amounts, in order, make of what was stored before. *)
Lemma fold_add_expense_lookup (expenses : list Expense) (acc : Aggregate) (label : jsstring) :
  monthMap (fold_left (add_expense host) expenses acc) !! label
  = month_value_from (monthMap acc !! label) (month_amounts host label expenses).
Proof.
  revert acc. induction expenses as [| e expenses IH]; intros acc; [reflexivity |].
  simpl. rewrite IH. unfold month_amounts. rewrite filter_cons. simpl.
  destruct (decide (monthLabel host (date e) = label)) as [<- | Hne].
  - by rewrite lookup_insert_eq.
  - by rewrite lookup_insert_ne.
Qed.

(** A month's value is the sum of the month's amounts as long as no running
    sum of these amounts is [NaN]. *)
Lemma aggregate_month_value (expenses : list Expense) (label : jsstring) :
  no_nan_from PrimFloat.zero (month_amounts host label expenses) = true →
  agrees (monthMap (aggregate host expenses) !! label)
         (sum_amounts (month_amounts host label expenses)).
Proof.
  intros H. unfold aggregate. rewrite fold_add_expense_lookup.
  by apply month_value_from_sum.
Qed.

(** With a single record the total is that record's amount. *)
Lemma aggregate_single (e : Expense) :
  same_value_zero (total (aggregate host [e])) (amount e) = true.
Proof.
  unfold aggregate. simpl.
  destruct (add_zero_l PrimFloat.zero (amount e) eq_refl) as [-> | [? ?]].
  - apply same_value_zero_refl.
  - by apply same_value_zero_zeros.
Qed.

Lemma sorted_months_length (mm : gmap jsstring float) :
  length (sorted_months mm) = size (dom mm).
Proof.
  unfold sorted_months.
  by rewrite js_sort_length, length_fmap, length_map_to_list, size_dom.
Qed.

Lemma trendSummary_empty_iff (mm : gmap jsstring float) :
  trendSummary host mm = [] ↔ (size (dom mm) < 2)%nat.
Proof.
  unfold trendSummary. rewrite <- sorted_months_length.
  destruct (2 <=? length (sorted_months mm))%nat eqn:E.
  - apply Nat.leb_le in E. split; [| lia].
    intros H. by apply trend_sentence_nonempty in H.
  - apply Nat.leb_gt in E. done.
Qed.

(** C3. A trend sentence is produced exactly when the expenses carry at
    least two distinct month labels; two expenses of one month give the
    empty string. *)
Theorem C3_trend_iff_two_labels (expenses : list Expense) :
  (trendSummary host (monthMap (aggregate host expenses)) ≠ []
   ↔ (2 ≤ size (month_labels host expenses))%nat)
  ∧ ∀ e1 e2 : Expense,
      monthLabel host (date e1) = monthLabel host (date e2) →
      trendSummary host (monthMap (aggregate host [e1; e2])) = [].
Proof.
  split.
  - rewrite trendSummary_empty_iff, aggregate_dom. lia.
  - intros e1 e2 Heq. apply trendSummary_empty_iff. rewrite aggregate_dom.
    assert (month_labels host [e1; e2] = {[monthLabel host (date e2)]}) as ->
      by (unfold month_labels; simpl; rewrite Heq; set_solver).
    rewrite size_singleton. lia.
Qed.

(** C10. With exactly two month labels, [a] sorted before [b], and a zero
    difference between their sums, the sentence reports [b] as "higher" by
    [$0.00]: the wording follows the test [diff >= 0]. *)
Theorem C10_zero_difference_is_higher (expenses : list Expense) (a b : jsstring) :
  let mm := monthMap (aggregate host expenses) in
  sorted_months mm = [a; b] →
  PrimFloat.is_zero (PrimFloat.sub (spend_of mm b) (spend_of mm a)) = true →
  trendSummary host mm
  = u16 "Compared to " ++ a ++ u16 ", your spending in " ++ b
    ++ u16 " is higher by $0.00.".
Proof.
  intros mm Hsorted Hzero. unfold trendSummary. fold mm. rewrite Hsorted.
  change (trend_sentence host a b (PrimFloat.sub (spend_of mm b) (spend_of mm a))
          = u16 "Compared to " ++ a ++ u16 ", your spending in " ++ b
            ++ u16 " is higher by $0.00.").
  unfold trend_sentence.
  destruct (is_zero_cases _ Hzero) as [-> | ->]; reflexivity.
Qed.

(** C4, on any host that renders the two dates as "January 2024" and
    "February 2024": the total is [9.5]; the labels sort as February,
    January, so that the sentence is about January, the earlier month, and
    reports it as lower by [$0.50]. *)
Theorem C4_coffee_scenario :
  monthLabel host (VStr (u16 "2024-01-05")) = u16 "January 2024" →
  monthLabel host (VStr (u16 "2024-02-03")) = u16 "February 2024" →
  let agg := aggregate host coffee_expenses in
  total agg = 9.5%float
  ∧ sorted_months (monthMap agg) = [u16 "February 2024"; u16 "January 2024"]
  ∧ trendSummary host (monthMap agg)
    = u16 "Compared to February 2024, your spending in January 2024 is lower by $0.50.".
Proof.
  intros Hjan Hfeb.
  assert (monthMap (aggregate host coffee_expenses)
          = <[u16 "February 2024" := 5%float]> (<[u16 "January 2024" := 4.5%float]> ∅))
    as Hmm.
  { unfold aggregate, coffee_expenses, coffee. simpl. unfold add_expense. simpl.
    rewrite Hjan, Hfeb. vm_compute. reflexivity. }
  cbv zeta. rewrite Hmm. split; [| split].
  - rewrite aggregate_total. reflexivity.
  - vm_compute. reflexivity.
  - vm_compute. reflexivity.
Qed.

End Aggregation.

(** ** The sums of the aggregation *)






Section AggregationSums.

Context (host : Host).





End AggregationSums.

(** ** Histories *)

Lemma invocations_app (h1 h2 : list Event) :
  invocations (h1 ++ h2) = invocations h1 ++ invocations h2.
Proof. apply omap_app. Qed.

Lemma row_results_app (h1 h2 : list Event) :
  row_results (h1 ++ h2) = row_results h1 ++ row_results h2.
Proof. apply omap_app. Qed.

Lemma indexed_ids_app (h1 h2 : list Event) :
  indexed_ids (h1 ++ h2) = indexed_ids h1 ++ indexed_ids h2.
Proof. apply omap_app. Qed.

Lemma error_reports_app (h1 h2 : list Event) :
  error_reports (h1 ++ h2) = error_reports h1 ++ error_reports h2.
Proof. apply omap_app. Qed.

Lemma added_app (h1 h2 : list Event) : added (h1 ++ h2) = added h1 ++ added h2.
Proof. apply omap_app. Qed.

Lemma invocations_none (Q : Event -> bool) (h : list Event) :
  (∀ ev, Q ev = true → generation_call ev = false) →
  forallb Q h = true → invocations h = [].
Proof.
  intros HQ. induction h as [| ev h IH]; [reflexivity |]. simpl.
  intros [Hev Hh]%andb_prop. specialize (HQ ev Hev).
  unfold invocations, generation_call in *. simpl.
  destruct (ev_call ev); try discriminate; by apply IH.
Qed.

Lemma row_results_none (Q : Event -> bool) (h : list Event) :
  (∀ ev, Q ev = true → row_call ev = false) →
  forallb Q h = true → row_results h = [].
Proof.
  intros HQ. induction h as [| ev h IH]; [reflexivity |]. simpl.
  intros [Hev Hh]%andb_prop. specialize (HQ ev Hev).
  unfold row_results, row_call in *. simpl.
  destruct (ev_call ev); try discriminate; by apply IH.
Qed.

Lemma added_none (Q : Event -> bool) (h : list Event) :
  (∀ ev, Q ev = true → row_call ev = false) →
  forallb Q h = true → added h = [].
Proof.
  intros HQ. induction h as [| ev h IH]; [reflexivity |]. simpl.
  intros [Hev Hh]%andb_prop. specialize (HQ ev Hev).
  unfold added, row_call in *. simpl.
  destruct (ev_call ev); try discriminate; by apply IH.
Qed.

(** An acknowledged addition or a report, never both: the two counts add
    up to the number of row results. *)
Lemma row_results_split (h : list Event) :
  (length (indexed_ids h) + length (error_reports h) = length (row_results h))%nat.
Proof.
  induction h as [| ev h IH]; [reflexivity |].
  unfold indexed_ids, error_reports, row_results in *. unfold omap in *. simpl.
  destruct (ev_call ev); simpl; try lia. destruct (ev_ok ev); simpl; lia.
Qed.

Lemma indexed_in_results (h : list Event) (id : jsstring) :
  Indexed id ∈ row_results h → id ∈ indexed_ids h.
Proof.
  unfold row_results, indexed_ids. rewrite !list_elem_of_omap.
  intros (ev & Hev & Hid). exists ev. split; [exact Hev |].
  destruct (ev_call ev); try discriminate.
  destruct (ev_ok ev); [| discriminate]. by inversion Hid.
Qed.

Lemma reported_in_results (h : list Event) (args : list JSValue) :
  Reported args ∈ row_results h → args ∈ error_reports h.
Proof.
  unfold row_results, error_reports. rewrite !list_elem_of_omap.
  intros (ev & Hev & Hargs). exists ev. split; [exact Hev |].
  destruct (ev_call ev); try discriminate.
  - by destruct (ev_ok ev).
  - by inversion Hargs.
Qed.

(** ** The monad *)

Section Emits.

Context {A : Type} (Q : Event -> bool).

Lemma emits_ret (a : A) : emits_only Q (ret a).
Proof.
  intros st o st' H. inversion H; subst. exists []. by rewrite app_nil_r.
Qed.

Lemma emits_throw (e : JSError) : emits_only Q (throw (A := A) e).
Proof.
  intros st o st' H. inversion H; subst. exists []. by rewrite app_nil_r.
Qed.

Lemma emits_gets (f : State -> A) : emits_only Q (gets f).
Proof.
  intros st o st' H. inversion H; subst. exists []. by rewrite app_nil_r.
Qed.

Lemma emits_call (c : Call) (answer : list Event -> Outcome A) :
  Q {| ev_call := c; ev_ok := true |} = true →
  Q {| ev_call := c; ev_ok := false |} = true →
  emits_only Q (call c answer).
Proof.
  intros Ht Hf st o st' H. inversion H; subst. eexists. split; [reflexivity |].
  simpl. destruct (is_returned (answer (history st))); by rewrite ?Ht, ?Hf.
Qed.

Lemma emits_bind {B} (m : M B) (k : B -> M A) :
  emits_only Q m → (∀ b, emits_only Q (k b)) → emits_only Q (bind m k).
Proof.
  intros Hm Hk st o st' H. unfold bind in H.
  destruct (m st) as [[b | e] st1] eqn:E;
    destruct (Hm _ _ _ E) as (new1 & Hh1 & HQ1).
  - destruct (Hk b _ _ _ H) as (new2 & Hh2 & HQ2).
    exists (new1 ++ new2). rewrite Hh2, Hh1, app_assoc. split; [reflexivity |].
    rewrite forallb_app. by rewrite HQ1, HQ2.
  - inversion H; subst. by exists new1.
Qed.

Lemma emits_try_catch (body : M A) (handler : JSError -> M A) :
  emits_only Q body → (∀ e, emits_only Q (handler e)) →
  emits_only Q (try_catch body handler).
Proof.
  intros Hb Hh st o st' H. unfold try_catch in H.
  destruct (body st) as [[a | e] st1] eqn:E;
    destruct (Hb _ _ _ E) as (new1 & Hh1 & HQ1).
  - inversion H; subst. by exists new1.
  - destruct (Hh e _ _ _ H) as (new2 & Hh2 & HQ2).
    exists (new1 ++ new2). rewrite Hh2, Hh1, app_assoc. split; [reflexivity |].
    rewrite forallb_app. by rewrite HQ1, HQ2.
Qed.

Lemma emits_weaken (Q' : Event -> bool) (m : M A) :
  (∀ ev, Q' ev = true → Q ev = true) → emits_only Q' m → emits_only Q m.
Proof.
  intros Himp Hm st o st' H. destruct (Hm _ _ _ H) as (new & Hh & HQ).
  exists new. split; [exact Hh |].
  apply forallb_forall. intros ev Hev. apply Himp.
  revert ev Hev. by apply forallb_forall.
Qed.

End Emits.

Lemma emits_modify (Q : Event -> bool) (f : State -> State) :
  (∀ st, history (f st) = history st) → emits_only Q (modify f).
Proof.
  intros Hf st o st' H. inversion H; subst. exists [].
  by rewrite Hf, app_nil_r.
Qed.

Ltac emits :=
  repeat first
    [ apply emits_ret | apply emits_throw | apply emits_gets
    | apply emits_modify; reflexivity
    | apply emits_call; reflexivity
    | apply emits_bind; [| intros ? ]
    | apply emits_try_catch; [| intros ? ]
    | match goal with |- emits_only _ (if ?b then _ else _) => destruct b end
    | match goal with |- emits_only _ (match ?x with _ => _ end) => destruct x end ].

Section ProgramFacts.

Context (host : Host) (svc : Services).

Lemma initEmbed_emits : emits_only embedding_call (initEmbed svc).
Proof. unfold initEmbed. emits. Qed.

Lemma getEmbedding_emits (text : JSValue) :
  emits_only embedding_call (getEmbedding svc text).
Proof. unfold getEmbedding. emits. Qed.

Lemma initRAG_emits : emits_only retrieval_call (initRAG svc).
Proof. unfold initRAG, console_log. emits. Qed.

Lemma retrieve_emits (userQuery : JSValue) :
  emits_only retrieval_call (retrieve host svc userQuery).
Proof.
  unfold retrieve. emits.
Qed.

(** Retrieval never calls the generator. *)
Lemma retrieve_invocations (userQuery : JSValue) (st st' : State) o :
  retrieve host svc userQuery st = (o, st') →
  invocations (history st') = invocations (history st).
Proof.
  intros H. destruct (retrieve_emits _ _ _ _ H) as (new & -> & HQ).
  rewrite invocations_app.
  rewrite (invocations_none retrieval_call new); [by rewrite app_nil_r | | exact HQ].
  intros ev. unfold retrieval_call, generation_call. by destruct (ev_call ev).
Qed.

(** C1. When retrieval leaves no valid expense, [queryInsights] returns the
    "no valid expenses" sentinel in the state retrieval ended in: nothing
    runs after retrieval, and the generator has not been called. *)
Theorem C1_no_expenses_sentinel (userQuery : JSValue) (st st' : State) :
  retrieve host svc userQuery st = (Returned [], st') →
  queryInsights host svc userQuery st = (Returned no_expenses_sentinel, st')
  ∧ invocations (history st') = invocations (history st).
Proof.
  intros H. split.
  - unfold queryInsights, bind. by rewrite H.
  - by apply retrieve_invocations in H.
Qed.

(** ** Generation and validation *)

(** The generation phase, call by call. *)
Lemma generate_eq (expenses : list Expense) (st : State) :
  generate host svc expenses st =
  let context := structuredContext host expenses in
  let st1 ok := record_event (CModelInvoke (user_message (prompt context))) ok st in
  let st2 ok :=
    record_event (CModelInvoke (user_message (simplePrompt context))) ok (st1 true) in
  match sv_modelInvoke svc (history st) (user_message (prompt context)) with
  | Thrown e => (Thrown e, st1 false)
  | Returned r1 =>
      let insight := clean (or_else (content_trim r1) []) in
      if degenerate insight then
        match sv_modelInvoke svc (history (st1 true))
                (user_message (simplePrompt context)) with
        | Thrown e => (Thrown e, st2 false)
        | Returned r2 =>
            (Returned (or_else (Some (clean (or_else (content_trim r2) insight)))
                               no_insight_sentinel),
             st2 true)
        end
      else (Returned (or_else (Some insight) no_insight_sentinel), st1 true)
  end.
Proof.
  unfold generate, retry, invoke, call, bind, ret. cbv zeta.
  destruct (sv_modelInvoke svc (history st) _) as [r1 | e]; [| reflexivity].
  cbn [is_returned].
  destruct (degenerate (clean (or_else (content_trim r1) []))); [| reflexivity].
  destruct (sv_modelInvoke svc _ _) as [r2 | e]; reflexivity.
Qed.

Lemma simplePrompt_shorter (context : jsstring) :
  (length (simplePrompt context) < length (prompt context))%nat.
Proof.
  unfold simplePrompt, prompt. rewrite !length_app.
  change (length simple_head) with 51%nat.
  change (length prompt_head) with 103%nat.
  lia.
Qed.

(** A run of [queryInsights] calls the generator at most twice. *)
Lemma queryInsights_at_most_two_calls (userQuery : JSValue) (st st' : State) o :
  queryInsights host svc userQuery st = (o, st') →
  (length (invocations (history st')) ≤ length (invocations (history st)) + 2)%nat.
Proof.
  unfold queryInsights, bind.
  destruct (retrieve host svc userQuery st) as [[expenses | e] st1] eqn:E;
    apply retrieve_invocations in E; rewrite <- E.
  - destruct (length expenses =? 0)%nat.
    + intros H. inversion H; subst. lia.
    + rewrite generate_eq. cbv zeta.
      destruct (sv_modelInvoke svc (history st1) _) as [r1 | e1].
      * destruct (degenerate _).
        -- destruct (sv_modelInvoke svc _ _) as [r2 | e2];
             intros H; inversion H; subst; simpl;
             rewrite !invocations_app; simpl; rewrite !length_app; simpl; lia.
        -- intros H; inversion H; subst; simpl.
           rewrite !invocations_app; simpl; rewrite !length_app; simpl; lia.
      * intros H; inversion H; subst; simpl.
        rewrite !invocations_app; simpl; rewrite !length_app; simpl; lia.
  - intros H. inversion H; subst. lia.
Qed.

(** C6, as the code has it. When the cleaned primary output is degenerate,
    exactly one retry is issued, with the simplified prompt, which is
    shorter than the primary one. The retry's trimmed output is taken when
    it is non-empty, the test coming before the markers are stripped, and
    the cleaned primary output otherwise; what was taken is stripped and
    trimmed, and an empty final text gives the "no meaningful insight"
    sentinel. No run calls the generator more than twice. *)
Theorem C6_degenerate_output_retried_once
    (expenses : list Expense) (st : State) (r1 r2 : Response) :
  let context := structuredContext host expenses in
  let insight := clean (or_else (content_trim r1) []) in
  sv_modelInvoke svc (history st) (user_message (prompt context)) = Returned r1 →
  degenerate insight = true →
  sv_modelInvoke svc (history st ++ [invoked (prompt context) true])
    (user_message (simplePrompt context)) = Returned r2 →
  let final := clean (or_else (content_trim r2) insight) in
  (∃ st',
      generate host svc expenses st
      = (Returned (match final with [] => no_insight_sentinel | _ => final end), st')
      ∧ history st'
        = history st ++ [invoked (prompt context) true;
                         invoked (simplePrompt context) true])
  ∧ (length (simplePrompt context) < length (prompt context))%nat
  ∧ ∀ userQuery st0 o st0',
      queryInsights host svc userQuery st0 = (o, st0') →
      (length (invocations (history st0')) ≤ length (invocations (history st0)) + 2)%nat.
Proof.
  intros context insight H1 Hdeg H2 final. split; [| split].
  - rewrite generate_eq. cbv zeta. fold context. rewrite H1. fold insight.
    rewrite Hdeg. cbn [history record_event]. unfold invoked in H2. rewrite H2.
    fold final. eexists. split.
    + f_equal. f_equal. by destruct final.
    + cbn [history record_event]. by rewrite <- app_assoc.
  - apply simplePrompt_shorter.
  - intros userQuery st0 o st0'. apply queryInsights_at_most_two_calls.
Qed.


End ProgramFacts.

(** ** Ingestion *)

Section Ingestion.

Context (host : Host) (svc : Services).

(** What the [catch] block does with the outcome of the [try] block. *)
Lemma ingest_row_caught (exp : Row) (st : State) :
  match embed_row host svc exp st with
  | (Returned _, st1) => ingest_row host svc exp st = (Returned tt, st1)
  | (Thrown err, st1) =>
      ingest_row host svc exp st
      = (Returned tt,
         record_event (CConsoleError (failure_report host exp err)) true st1)
  end.
Proof.
  unfold ingest_row, try_catch.
  by destruct (embed_row host svc exp st) as [[[] | err] st1].
Qed.

Lemma embedding_not_row_call (ev : Event) :
  embedding_call ev = true → row_call ev = false.
Proof. unfold embedding_call, row_call. by destruct (ev_call ev). Qed.

(** The [try] block leaves an acknowledged addition under the row's id when
    it returns, and nothing that counts for a row when it throws. *)
Lemma embed_row_results (exp : Row) (st st1 : State) o :
  embed_row host svc exp st = (o, st1) →
  ∃ new, history st1 = history st ++ new
         ∧ row_results new
           = if is_returned o then [Indexed (ToString host (row_id exp))] else [].
Proof.
  unfold embed_row, bind.
  destruct (getEmbedding svc (VStr (describe host exp)) st) as [[vec | e] st0] eqn:E;
    destruct (getEmbedding_emits svc _ _ _ _ E) as (new0 & Hh0 & HQ0);
    pose proof (row_results_none _ _ embedding_not_row_call HQ0) as Hnone.
  - assert (∀ id, id = ToString host (row_id exp) →
              call (CCollectionAdd id vec (metadata_of host exp))
                   (fun h => sv_collectionAdd svc h id vec (metadata_of host exp)) st0
              = (o, st1) →
              ∃ new, history st1 = history st ++ new
                     ∧ row_results new
                       = if is_returned o
                         then [Indexed (ToString host (row_id exp))] else []) as Hadd.
    { intros id -> H. unfold call in H. inversion H; subst. eexists. split.
      - cbn [history record_event]. rewrite Hh0, <- app_assoc. reflexivity.
      - rewrite row_results_app, Hnone, <- Hh0.
        by destruct (sv_collectionAdd svc (history st0) _ vec _). }
    destruct (row_id exp) eqn:Hid; simpl;
      try (apply Hadd; reflexivity);
      intros H; inversion H; subst; by exists new0.
  - intros H. inversion H; subst. by exists new0.
Qed.

(** One iteration never throws and leaves exactly one result, which names
    the row. *)
Lemma ingest_row_accounted (exp : Row) (st : State) :
  ∃ st' new r,
    ingest_row host svc exp st = (Returned tt, st')
    ∧ history st' = history st ++ new
    ∧ row_results new = [r]
    ∧ row_accounted host exp r.
Proof.
  pose proof (ingest_row_caught exp st) as Hc.
  destruct (embed_row host svc exp st) as [[[] | err] st1] eqn:E;
    destruct (embed_row_results _ _ _ _ E) as (new & Hh & Hr); simpl in Hr.
  - exists st1, new, (Indexed (ToString host (row_id exp))). by repeat split.
  - eexists _, _, (Reported (failure_report host exp err)).
    split; [exact Hc |]. split; [| split].
    + cbn [history record_event]. rewrite Hh, <- app_assoc. reflexivity.
    + by rewrite row_results_app, Hr.
    + by exists err.
Qed.

(** The loop never throws, and leaves one result per row, in order. *)
Lemma for_each_ingest_row (rows : list Row) (st : State) :
  ∃ st' new,
    for_each rows (ingest_row host svc) st = (Returned tt, st')
    ∧ history st' = history st ++ new
    ∧ Forall2 (row_accounted host) rows (row_results new).
Proof.
  revert st. induction rows as [| exp rows IH]; intros st.
  - exists st, []. repeat split; [by rewrite app_nil_r | constructor].
  - destruct (ingest_row_accounted exp st) as (st1 & new1 & r & Hrun & Hh1 & Hr1 & Hacc).
    destruct (IH st1) as (st' & new2 & Hloop & Hh2 & Hall).
    exists st', (new1 ++ new2). split; [| split].
    + cbn [for_each]. unfold bind. by rewrite Hrun.
    + by rewrite Hh2, Hh1, app_assoc.
    + rewrite row_results_app, Hr1. by constructor.
Qed.

(** A run of [buildEmbeddings] whose initialisation and row query succeed
    completes, and leaves one result per row, in order. *)
Lemma buildEmbeddings_run (st st1 : State) (rows : list Row) :
  initRAG svc st = (Returned tt, st1) →
  sv_poolQuery svc (history st1) select_expenses = Returned rows →
  ∃ st' new,
    buildEmbeddings host svc st = (Returned RetUndefined, st')
    ∧ history st' = history st1 ++ new
    ∧ Forall2 (row_accounted host) rows (row_results new).
Proof.
  intros Hinit Hpool. unfold buildEmbeddings. unfold bind at 1. rewrite Hinit.
  unfold bind at 1. unfold call at 1. rewrite Hpool. cbn [is_returned].
  unfold bind at 1. unfold console_log at 1. unfold call at 1. cbn [is_returned].
  unfold bind at 1.
  match goal with
  | |- context [for_each rows (ingest_row host svc) ?s] =>
      destruct (for_each_ingest_row rows s) as (st3 & new & Hrun & Hh & Hall)
  end.
  rewrite Hrun.
  unfold bind, console_log, call, ret. cbn [is_returned].
  eexists _, _. split; [reflexivity |]. split.
  - cbn [history record_event]. rewrite Hh. cbn [history record_event].
    rewrite <- !app_assoc. reflexivity.
  - rewrite !row_results_app.
    change (row_results [ {| ev_call := CPoolQuery select_expenses; ev_ok := true |} ])
      with (@nil RowResult).
    unfold row_results at 1 3. cbn [omap list_omap ev_call].
    by rewrite app_nil_r.
Qed.

(** A completed ingestion evaluates to [undefined]. *)
Lemma buildEmbeddings_returns_undefined (st st' : State) (v : ReturnValue) :
  buildEmbeddings host svc st = (Returned v, st') → v = RetUndefined.
Proof.
  unfold buildEmbeddings, bind, ret. intros H.
  repeat match type of H with
         | context [match ?m ?s with _ => _ end] => destruct (m s) as [[? | ?] ?]
         end; by inversion H.
Qed.

(** Additions and reports of the loop add up to the number of rows. *)
Lemma for_each_ingest_row_counts (rows : list Row) (st : State) :
  ∃ st' new,
    for_each rows (ingest_row host svc) st = (Returned tt, st')
    ∧ history st' = history st ++ new
    ∧ (length (indexed_ids new) + length (error_reports new) = length rows)%nat.
Proof.
  destruct (for_each_ingest_row rows st) as (st' & new & Hrun & Hh & Hall).
  exists st', new. repeat split; try done.
  rewrite row_results_split. symmetry. by eapply Forall2_length.
Qed.

End Ingestion.

(** ** What becomes of each record *)

Section RowOutcomes.

Context (host : Host) (svc : Services).

Lemma getEmbedding_always (text : JSValue) (st st' : State) o :
  always_embeds svc text →
  getEmbedding svc text st = (o, st') → is_returned o = true.
Proof.
  intros H. unfold getEmbedding, initEmbed, bind, gets, call, ret, throw, modify.
  destruct (embedPipeline st).
  - destruct (H (history st)) as (_ & output & -> & Hv).
    destruct output; try discriminate Hv; by intros [= <- _].
  - destruct (H (history st)) as (-> & _). cbn [is_returned history record_event
      set_embedPipeline].
    match goal with
    | |- context [sv_embedPipeline svc ?h text] =>
        destruct (H h) as (_ & output & -> & Hv)
    end.
    destruct output; try discriminate Hv; by intros [= <- _].
Qed.

Lemma getEmbedding_never (text : JSValue) (st st' : State) o (err : JSError) :
  never_embeds svc text err →
  getEmbedding svc text st = (o, st') → o = Thrown err.
Proof.
  intros H. unfold getEmbedding, initEmbed, bind, gets, call, ret, throw, modify.
  destruct (embedPipeline st).
  - destruct (H (history st)) as (_ & ->). by intros [= <- _].
  - destruct (H (history st)) as (-> & _). cbn [is_returned history record_event
      set_embedPipeline].
    match goal with
    | |- context [sv_embedPipeline svc ?h text] => destruct (H h) as (_ & ->)
    end.
    by intros [= <- _].
Qed.

(** The [try] block of a record: what it leaves in the history, and how
    it ends for a record that succeeds and for one that fails. *)
Lemma embed_row_outcome (exp : Row) (st st1 : State) o :
  embed_row host svc exp st = (o, st1) →
  ∃ new, history st1 = history st ++ new
         ∧ row_results new
           = (if is_returned o then [Indexed (ToString host (row_id exp))] else [])
         ∧ added new = (if is_returned o then [index_entry host exp] else [])
         ∧ (row_succeeds host svc exp → is_returned o = true)
         ∧ (∀ err, row_fails host svc exp err → o = Thrown err).
Proof.
  unfold embed_row, bind.
  destruct (getEmbedding svc (VStr (describe host exp)) st) as [[vec | e] st0] eqn:E;
    destruct (getEmbedding_emits svc _ _ _ _ E) as (new0 & Hh0 & HQ0);
    pose proof (row_results_none _ _ embedding_not_row_call HQ0) as Hnone;
    pose proof (added_none _ _ embedding_not_row_call HQ0) as Hadded.
  - assert (∀ id, id = ToString host (row_id exp) → has_toString (row_id exp) = true →
              call (CCollectionAdd id vec (metadata_of host exp))
                   (fun h => sv_collectionAdd svc h id vec (metadata_of host exp)) st0
              = (o, st1) →
              ∃ new, history st1 = history st ++ new
                     ∧ row_results new
                       = (if is_returned o
                          then [Indexed (ToString host (row_id exp))] else [])
                     ∧ added new = (if is_returned o then [index_entry host exp] else [])
                     ∧ (row_succeeds host svc exp → is_returned o = true)
                     ∧ (∀ err, row_fails host svc exp err → o = Thrown err)) as Hadd.
    { intros id -> Hid H. unfold call in H. inversion H; subst. eexists.
      split; [cbn [history record_event]; rewrite Hh0, <- app_assoc; reflexivity |].
      split; [| split; [| split]].
      - rewrite row_results_app, Hnone, <- Hh0.
        by destruct (sv_collectionAdd svc (history st0) _ vec _).
      - rewrite added_app, Hadded, <- Hh0. unfold index_entry.
        by destruct (sv_collectionAdd svc (history st0) _ vec _).
      - intros (_ & _ & Hok). by rewrite Hok.
      - intros err [Hnever | (_ & _ & Hnever)].
        + pose proof (getEmbedding_never _ _ _ _ _ Hnever E) as Hx. discriminate Hx.
        + by rewrite Hnever. }
    destruct (row_id exp) eqn:Hid; cbn [toString_method];
      try (apply Hadd; reflexivity);
      intros H; inversion H; subst; exists new0;
      (split; [exact Hh0 |]); (split; [exact Hnone |]); (split; [exact Hadded |]);
      (split; [intros (_ & Hts & _); rewrite Hid in Hts; discriminate Hts |]);
      (intros err [Hnever | (_ & Hts & _)]; [| rewrite Hid in Hts; discriminate Hts]);
      pose proof (getEmbedding_never _ _ _ _ _ Hnever E) as Hx; discriminate Hx.
  - intros H. inversion H; subst. exists new0.
    split; [exact Hh0 |]. split; [exact Hnone |]. split; [exact Hadded |]. split.
    + intros (Halways & _). exact (getEmbedding_always _ _ _ _ Halways E).
    + intros err [Hnever | (Halways & _)].
      * pose proof (getEmbedding_never _ _ _ _ _ Hnever E) as [= ->]. reflexivity.
      * pose proof (getEmbedding_always _ _ _ _ Halways E) as Hx. discriminate Hx.
Qed.

(** One iteration never throws and leaves exactly one result: the record's
    entry in the index, or a report that names the record. *)
Lemma ingest_row_settled (exp : Row) (st : State) :
  ∃ st' new r,
    ingest_row host svc exp st = (Returned tt, st')
    ∧ history st' = history st ++ new
    ∧ row_results new = [r]
    ∧ row_accounted host exp r
    ∧ added new = match r with Indexed _ => [index_entry host exp] | Reported _ => [] end
    ∧ (row_succeeds host svc exp → r = Indexed (ToString host (row_id exp)))
    ∧ (∀ err, row_fails host svc exp err → r = Reported (failure_report host exp err)).
Proof.
  pose proof (ingest_row_caught host svc exp st) as Hc.
  destruct (embed_row host svc exp st) as [[[] | err] st1] eqn:E;
    destruct (embed_row_outcome _ _ _ _ E) as (new & Hh & Hr & Hadd & Hok & Hko);
    cbn [is_returned] in *.
  - exists st1, new, (Indexed (ToString host (row_id exp))).
    repeat split; try done. intros err Hfails. by pose proof (Hko err Hfails).
  - eexists _, _, (Reported (failure_report host exp err)).
    split; [exact Hc |]. split; [| split; [| split; [| split; [| split]]]].
    + cbn [history record_event]. rewrite Hh, <- app_assoc. reflexivity.
    + by rewrite row_results_app, Hr.
    + by exists err.
    + by rewrite added_app, Hadd.
    + intros Hs. by pose proof (Hok Hs).
    + intros err' Hfails. pose proof (Hko err' Hfails) as [= ->]. reflexivity.
Qed.

Lemma row_settled_mono (entries entries' : list (jsstring * Metadata)) exp r :
  entries ⊆ entries' → row_settled host svc entries exp r → row_settled host svc entries' exp r.
Proof.
  intros Hsub (Hacc & Hin & Hok & Hko). repeat split; try done.
  intros id Hid. apply Hsub. by eapply Hin.
Qed.

Lemma for_each_ingest_row_settled (rows : list Row) (st : State) :
  ∃ st' new,
    for_each rows (ingest_row host svc) st = (Returned tt, st')
    ∧ history st' = history st ++ new
    ∧ Forall2 (row_settled host svc (added new)) rows (row_results new)
    ∧ added new `sublist_of` map (index_entry host) rows.
Proof.
  revert st. induction rows as [| exp rows IH]; intros st.
  - exists st, []. repeat split; [by rewrite app_nil_r | constructor | constructor].
  - destruct (ingest_row_settled exp st)
      as (st1 & new1 & r & Hrun & Hh1 & Hr1 & Hacc & Hadd & Hok & Hko).
    destruct (IH st1) as (st' & new2 & Hloop & Hh2 & Hall & Hsub).
    exists st', (new1 ++ new2). split; [| split; [| split]].
    + cbn [for_each]. unfold bind. by rewrite Hrun.
    + by rewrite Hh2, Hh1, app_assoc.
    + rewrite row_results_app, Hr1, added_app. constructor.
      * repeat split; try done. intros id ->. rewrite Hadd. set_solver.
      * eapply Forall2_impl; [exact Hall |]. intros exp' r'. apply row_settled_mono.
        set_solver.
    + rewrite added_app, Hadd. cbn [map]. destruct r; cbn [app].
      * by apply sublist_skip.
      * by apply sublist_cons.
Qed.

(** One iteration, from the state [st0] in which the record's turn comes:
    a failure of the embedding is reported; once the embedding has
    returned, the addition is asked of the index, and is either
    acknowledged or reported. In each case the iteration returns. *)
Lemma ingest_row_cases (exp : Row) (st0 st2 : State) :
  (∀ err,
      getEmbedding svc (VStr (describe host exp)) st0 = (Thrown err, st2) →
      ingest_row host svc exp st0
      = (Returned tt, record_event (CConsoleError (failure_report host exp err)) true st2))
  ∧ (∀ vector,
        getEmbedding svc (VStr (describe host exp)) st0 = (Returned vector, st2) →
        has_toString (row_id exp) = true →
        let addition :=
          CCollectionAdd (ToString host (row_id exp)) vector (metadata_of host exp) in
        match sv_collectionAdd svc (history st2) (ToString host (row_id exp)) vector
                (metadata_of host exp) with
        | Returned _ =>
            ingest_row host svc exp st0 = (Returned tt, record_event addition true st2)
        | Thrown err =>
            ingest_row host svc exp st0
            = (Returned tt,
               record_event (CConsoleError (failure_report host exp err)) true
                 (record_event addition false st2))
        end).
Proof.
  split.
  - intros err Hembed. unfold ingest_row, try_catch, embed_row, bind.
    by rewrite Hembed.
  - intros vector Hembed Hid addition. unfold ingest_row, try_catch, embed_row, bind.
    rewrite Hembed.
    assert (toString_method host (row_id exp) st2
            = (Returned (ToString host (row_id exp)), st2)) as ->
      by (destruct (row_id exp); try discriminate Hid; reflexivity).
    unfold call. fold addition.
    by destruct (sv_collectionAdd svc (history st2) _ vector _) as [[] | err].
Qed.

(** C8. An iteration of the loop always returns: a failure of the embedding
    of a record, or of its upsert, is caught and reported on the error
    console with the record's id and the message of the error, and a
    record whose embedding returns and whose upsert is acknowledged is in
    the index. Therefore, once the records have been read, the run
    completes whatever happens to each record, and every record is
    processed, in order: it leaves either an acknowledged addition to the
    index or a report that names it. An addition is the record's own entry,
    its id with its metadata. A record whose embedding and upsert succeed
    is added to the index, whatever happened to the records before it; a
    record whose embedding fails, or whose upsert fails, is reported with
    its id and the message of the error. *)
Theorem C8_row_failures_are_isolated (st st1 : State) (rows : list Row) :
  initRAG svc st = (Returned tt, st1) →
  sv_poolQuery svc (history st1) select_expenses = Returned rows →
  (∀ exp st0 st2,
      (∀ err,
          getEmbedding svc (VStr (describe host exp)) st0 = (Thrown err, st2) →
          ingest_row host svc exp st0
          = (Returned tt,
             record_event (CConsoleError (failure_report host exp err)) true st2))
      ∧ (∀ vector,
            getEmbedding svc (VStr (describe host exp)) st0 = (Returned vector, st2) →
            has_toString (row_id exp) = true →
            let addition :=
              CCollectionAdd (ToString host (row_id exp)) vector (metadata_of host exp) in
            match sv_collectionAdd svc (history st2) (ToString host (row_id exp)) vector
                    (metadata_of host exp) with
            | Returned _ =>
                ingest_row host svc exp st0
                = (Returned tt, record_event addition true st2)
            | Thrown err =>
                ingest_row host svc exp st0
                = (Returned tt,
                   record_event (CConsoleError (failure_report host exp err)) true
                     (record_event addition false st2))
            end))
  ∧ ∃ st' new,
      buildEmbeddings host svc st = (Returned RetUndefined, st')
      ∧ history st' = history st1 ++ new
      ∧ Forall2 (row_settled host svc (added (history st'))) rows (row_results new).
Proof.
  intros Hinit Hpool. split; [apply ingest_row_cases |]. unfold buildEmbeddings. unfold bind at 1. rewrite Hinit.
  unfold bind at 1. unfold call at 1. rewrite Hpool. cbn [is_returned].
  unfold bind at 1. unfold console_log at 1. unfold call at 1. cbn [is_returned].
  unfold bind at 1.
  match goal with
  | |- context [for_each rows (ingest_row host svc) ?s] =>
      destruct (for_each_ingest_row_settled rows s) as (st3 & new & Hrun & Hh & Hall & _)
  end.
  rewrite Hrun.
  unfold bind, console_log, call, ret. cbn [is_returned].
  eexists _, _. split; [reflexivity |].
  cbn [history record_event] in *. rewrite Hh. cbn [history record_event].
  split; [rewrite <- !app_assoc; reflexivity |].
  rewrite !row_results_app.
  change (row_results [ {| ev_call := CPoolQuery select_expenses; ev_ok := true |} ])
    with (@nil RowResult).
  unfold row_results at 1 3. cbn [omap list_omap ev_call]. rewrite app_nil_r.
  eapply Forall2_impl; [exact Hall |]. intros exp r. apply row_settled_mono.
  rewrite !added_app. set_solver.
Qed.

End RowOutcomes.

(** C7, as the code has it. [buildEmbeddings] has no [return] statement and
    keeps no counters: a completed run evaluates to [undefined]. On five
    records of which the third fails to embed, it evaluates to [undefined]
    after adding the four others to the index and reporting the third on
    the error console. *)
Theorem C7_ingestion_returns_undefined :
  (∀ host svc st st' v,
      buildEmbeddings host svc st = (Returned v, st') → v = RetUndefined)
  ∧ (let run := buildEmbeddings sample_host five_rows_services fresh in
     fst run = Returned RetUndefined
     ∧ indexed_ids (history (snd run)) = [u16 "1"; u16 "2"; u16 "4"; u16 "5"]
     ∧ error_reports (history (snd run))
       = [failure_report sample_host third_row (service_fault "embedding failed")]).
Proof.
  split.
  - intros host svc st st' v. apply buildEmbeddings_returns_undefined.
  - vm_compute. repeat split.
Qed.

(** ** The scenarios *)

(** C1 on a run whose two hits have no numeric amount. *)
Lemma C1_no_expenses_sentinel_witness :
  let st' := snd (retrieve sample_host corrupt_hits_services coffee_query fresh) in
  retrieve sample_host corrupt_hits_services coffee_query fresh = (Returned [], st')
  ∧ queryInsights sample_host corrupt_hits_services coffee_query fresh
    = (Returned no_expenses_sentinel, st')
  ∧ invocations (history st') = invocations (history fresh).
Proof.
  cbv zeta.
  assert (retrieve sample_host corrupt_hits_services coffee_query fresh
          = (Returned [],
             snd (retrieve sample_host corrupt_hits_services coffee_query fresh))) as H
    by (vm_compute; reflexivity).
  split; [exact H |].
  exact (C1_no_expenses_sentinel sample_host corrupt_hits_services coffee_query
           fresh _ H).
Defined.


(** C3 on two coffees of January 2024. *)
Lemma C3_trend_iff_two_labels_witness :
  monthLabel sample_host (date (coffee 4.5 "2024-01-05"))
  = monthLabel sample_host (date (coffee 5 "2024-01-20"))
  ∧ trendSummary sample_host (monthMap (aggregate sample_host same_month_expenses)) = [].
Proof.
  split; [reflexivity |].
  apply (proj2 (C3_trend_iff_two_labels sample_host [])). reflexivity.
Defined.

(** C4 on the sample host. *)
Lemma C4_coffee_scenario_witness :
  let agg := aggregate sample_host coffee_expenses in
  total agg = 9.5%float
  ∧ sorted_months (monthMap agg) = [u16 "February 2024"; u16 "January 2024"]
  ∧ trendSummary sample_host (monthMap agg)
    = u16 "Compared to February 2024, your spending in January 2024 is lower by $0.50.".
Proof.
  apply (C4_coffee_scenario sample_host); reflexivity.
Defined.

(** C10 on two coffees of [4.5], one in January and one in February. *)
Lemma C10_zero_difference_is_higher_witness :
  trendSummary sample_host (monthMap (aggregate sample_host equal_spend_expenses))
  = u16 "Compared to February 2024, your spending in January 2024 is higher by $0.00.".
Proof.
  apply (C10_zero_difference_is_higher sample_host equal_spend_expenses
           (u16 "February 2024") (u16 "January 2024")).
  - vm_compute. reflexivity.
  - vm_compute. reflexivity.
Defined.

(** C6 on a generator that says "Hello", then echoes a bare marker. *)
Lemma C6_degenerate_output_retried_once_witness :
  ∃ st',
    generate sample_host marker_retry_services coffee_expenses fresh
    = (Returned no_insight_sentinel, st')
    ∧ history st'
      = [invoked (prompt (structuredContext sample_host coffee_expenses)) true;
         invoked (simplePrompt (structuredContext sample_host coffee_expenses)) true].
Proof.
  apply (C6_degenerate_output_retried_once sample_host marker_retry_services
           coffee_expenses fresh hello bare_marker); reflexivity.
Defined.


(** C8 on the five records, when the third cannot be embedded and when
    the index refuses the second: the four others succeed and are added,
    the failing one is reported. *)
Lemma C8_row_failures_are_isolated_witness :
  (∃ st' new,
      buildEmbeddings sample_host five_rows_services fresh = (Returned RetUndefined, st')
      ∧ history st' = history (snd (initRAG five_rows_services fresh)) ++ new
      ∧ row_results new
        = [Indexed (u16 "1"); Indexed (u16 "2");
           Reported [VStr ([0x26A0; 0xFE0F] ++ u16 " Failed to embed expense ID 3:");
                     VStr (u16 "embedding failed")];
           Indexed (u16 "4"); Indexed (u16 "5")])
  ∧ (∃ st' new,
        buildEmbeddings sample_host second_row_refused_services fresh
        = (Returned RetUndefined, st')
        ∧ history st' = history (snd (initRAG second_row_refused_services fresh)) ++ new
        ∧ row_results new
          = [Indexed (u16 "1");
             Reported [VStr ([0x26A0; 0xFE0F] ++ u16 " Failed to embed expense ID 2:");
                       VStr (u16 "upsert failed")];
             Indexed (u16 "3"); Indexed (u16 "4"); Indexed (u16 "5")]).
Proof.
  split.
  - destruct (C8_row_failures_are_isolated sample_host five_rows_services fresh
                (snd (initRAG five_rows_services fresh)) five_rows)
      as (_ & st' & new & Hrun & Hh & Hall); [reflexivity | reflexivity |].
    exists st', new. split; [exact Hrun |]. split; [exact Hh |].
    assert (∀ id amt d,
              is_text third_row_text (VStr (describe sample_host (expense_row id amt d)))
              = false →
              row_succeeds sample_host five_rows_services (expense_row id amt d)) as Hok.
    { intros id amt d Hnot. split; [| split; [reflexivity | intros h vector; reflexivity]].
      intros h. split; [reflexivity |]. exists (EOTensor [PrimFloat.one]).
      split; [| reflexivity]. cbn [five_rows_services scripted sv_embedPipeline].
      by rewrite Hnot. }
    assert (row_fails sample_host five_rows_services third_row
              (service_fault "embedding failed")) as Hko.
    { left. intros h. split; reflexivity. }
    unfold five_rows in Hall.
    apply Forall2_cons_inv_l in Hall as (r1 & l1 & (_ & _ & H1 & _) & Hall & ->).
    apply Forall2_cons_inv_l in Hall as (r2 & l2 & (_ & _ & H2 & _) & Hall & ->).
    apply Forall2_cons_inv_l in Hall as (r3 & l3 & (_ & _ & _ & H3) & Hall & ->).
    apply Forall2_cons_inv_l in Hall as (r4 & l4 & (_ & _ & H4 & _) & Hall & ->).
    apply Forall2_cons_inv_l in Hall as (r5 & l5 & (_ & _ & H5 & _) & Hall & ->).
    apply Forall2_nil_inv_l in Hall as ->.
    rewrite (H1 (Hok "1" "4.50" "2024-01-05" eq_refl)%string),
      (H2 (Hok "2" "5.00" "2024-02-03" eq_refl)%string), (H3 _ Hko),
      (H4 (Hok "4" "7.25" "2024-03-01" eq_refl)%string),
      (H5 (Hok "5" "3.00" "2024-03-02" eq_refl)%string).
    reflexivity.
  - destruct (C8_row_failures_are_isolated sample_host second_row_refused_services fresh
                (snd (initRAG second_row_refused_services fresh)) five_rows)
      as (_ & st' & new & Hrun & Hh & Hall); [reflexivity | reflexivity |].
    exists st', new. split; [exact Hrun |]. split; [exact Hh |].
    assert (∀ exp, always_embeds second_row_refused_services exp) as Hemb.
    { intros exp h. split; [reflexivity |]. by exists (EOTensor [PrimFloat.one]). }
    assert (∀ id amt d,
              bool_decide (u16 id = u16 "2") = false →
              row_succeeds sample_host second_row_refused_services (expense_row id amt d))
      as Hok.
    { intros id amt d Hnot. split; [apply Hemb |]. split; [reflexivity |].
      intros h vector. cbn [second_row_refused_services sv_collectionAdd expense_row
        row_id ToString]. by rewrite Hnot. }
    assert (row_fails sample_host second_row_refused_services second_row
              (service_fault "upsert failed")) as Hko.
    { right. split; [apply Hemb |]. split; [reflexivity |]. intros h vector. reflexivity. }
    unfold five_rows in Hall.
    apply Forall2_cons_inv_l in Hall as (r1 & l1 & (_ & _ & H1 & _) & Hall & ->).
    apply Forall2_cons_inv_l in Hall as (r2 & l2 & (_ & _ & _ & H2) & Hall & ->).
    apply Forall2_cons_inv_l in Hall as (r3 & l3 & (_ & _ & H3 & _) & Hall & ->).
    apply Forall2_cons_inv_l in Hall as (r4 & l4 & (_ & _ & H4 & _) & Hall & ->).
    apply Forall2_cons_inv_l in Hall as (r5 & l5 & (_ & _ & H5 & _) & Hall & ->).
    apply Forall2_nil_inv_l in Hall as ->.
    rewrite (H1 (Hok "1" "4.50" "2024-01-05" eq_refl)%string), (H2 _ Hko),
      (H3 (Hok "3" "12.00" "2024-02-10" eq_refl)%string),
      (H4 (Hok "4" "7.25" "2024-03-01" eq_refl)%string),
      (H5 (Hok "5" "3.00" "2024-03-02" eq_refl)%string).
    reflexivity.
Defined.

(** C7 on the five records. *)
Lemma C7_ingestion_returns_undefined_witness :
  fst (buildEmbeddings sample_host five_rows_services fresh) = Returned RetUndefined.
Proof.
  destruct (buildEmbeddings sample_host five_rows_services fresh) as [[v | e] st'] eqn:E.
  - simpl. f_equal.
    exact (proj1 C7_ingestion_returns_undefined sample_host five_rows_services
             fresh st' v E).
  - vm_compute in E. discriminate E.
Defined.


(** C6 as the specification words it fails when the retry echoes a bare
    marker after a short primary answer: the specification keeps "Hello",
    the code returns the sentinel. *)
Lemma C6_counterexample :
  let run := queryInsights sample_host marker_retry_services coffee_query fresh in
  degenerate (clean (or_else (content_trim hello) [])) = true
  ∧ claimed_final hello bare_marker = u16 "Hello"
  ∧ fst run = Returned no_insight_sentinel
  ∧ fst run ≠ Returned (claimed_final hello bare_marker).
Proof.
  cbv zeta. repeat split; try (vm_compute; reflexivity).
  intros H. vm_compute in H. discriminate H.
Qed.

(** C7 as the specification words it fails on the five-record scenario: the
    value is [undefined], not an object of counts. *)
Lemma C7_counterexample :
  fst (buildEmbeddings sample_host five_rows_services fresh)
  ≠ Returned (claimed_counts 4 1).
Proof. intros H. vm_compute in H. discriminate H. Qed.


(** * Further properties *)

(** ** Initialisation *)

Section Initialisation.

Context (svc : Services).

(** X1. Once the embedding pipeline is loaded it is not loaded again:
    [getEmbedding] then makes the single call that embeds its text, and the
    pipeline stays loaded whatever that call does. *)
Theorem X1_pipeline_loaded_once (text : JSValue) (st : State) :
  embedPipeline st = true →
  let after := snd (getEmbedding svc text st) in
  history after
  = history st
    ++ [ {| ev_call := CEmbedPipeline text;
            ev_ok := is_returned (sv_embedPipeline svc (history st) text) |} ]
  ∧ embedPipeline after = true.
Proof.
  intros Hready. unfold getEmbedding, initEmbed, bind, gets, call, ret, throw.
  rewrite Hready. cbn [fst snd].
  destruct (sv_embedPipeline svc (history st) text) as [[items | data | | |] | e];
    cbn; by rewrite Hready.
Qed.

(** X2. The first [getEmbedding] loads the pipeline before it embeds, and
    leaves it loaded. *)
Theorem X2_first_embedding_loads_pipeline (text : JSValue) (st : State) :
  embedPipeline st = false →
  sv_pipeline svc (history st) = Returned tt →
  let loaded := {| ev_call := CPipeline; ev_ok := true |} in
  let after := snd (getEmbedding svc text st) in
  history after
  = history st
    ++ [ loaded;
         {| ev_call := CEmbedPipeline text;
            ev_ok := is_returned (sv_embedPipeline svc (history st ++ [loaded]) text) |} ]
  ∧ embedPipeline after = true.
Proof.
  intros Hcold Hload. unfold getEmbedding, initEmbed, bind, gets, call, ret, throw, modify.
  rewrite Hcold, Hload. cbn [is_returned history record_event set_embedPipeline].
  destruct (sv_embedPipeline svc _ text) as [[items | data | | |] | e];
    cbn; by rewrite <- app_assoc.
Qed.

(** X3. When the pipeline cannot be loaded, [getEmbedding] throws the
    loader's error without asking for any embedding, and the pipeline stays
    unloaded, so that the next call tries to load it again. *)
Theorem X3_pipeline_load_failure (text : JSValue) (st : State) (e : JSError) :
  embedPipeline st = false →
  sv_pipeline svc (history st) = Thrown e →
  ∃ st',
    getEmbedding svc text st = (Thrown e, st')
    ∧ history st' = history st ++ [ {| ev_call := CPipeline; ev_ok := false |} ]
    ∧ embedPipeline st' = false.
Proof.
  intros Hcold Hload. unfold getEmbedding, initEmbed, bind, gets, call.
  rewrite Hcold, Hload. eexists. split; [reflexivity |]. by split.
Qed.

(** [initRAG], case by case. *)
Lemma initRAG_ready (st : State) :
  collection st = true → model st = true → initRAG svc st = (Returned tt, st).
Proof.
  intros Hc Hm. unfold initRAG, bind, gets, ret. by rewrite Hc, Hm.
Qed.

Lemma initRAG_sets (st st' : State) :
  initRAG svc st = (Returned tt, st') → collection st' = true ∧ model st' = true.
Proof.
  unfold initRAG, bind, gets, ret, try_catch, console_log, call, modify.
  destruct (collection st) eqn:Hc, (model st) eqn:Hm;
    repeat first
      [ progress cbn [is_returned history record_event set_collection set_model
                      collection model]
      | rewrite Hm
      | match goal with
        | |- context [match ?o with Returned _ => _ | Thrown _ => _ end] => destruct o
        end ];
    intros H; inversion H; subst;
    cbn [record_event set_collection set_model collection model]; auto.
Qed.

(** X4. Initialisation happens once: after an [initRAG] that returned, the
    collection handle and the chat model are set, and a further [initRAG]
    returns at once without calling anything. *)
Theorem X4_initRAG_idempotent (st st' : State) :
  initRAG svc st = (Returned tt, st') →
  collection st' = true ∧ model st' = true
  ∧ initRAG svc st' = (Returned tt, st').
Proof.
  intros H. destruct (initRAG_sets _ _ H) as [Hc Hm].
  repeat split; try done. by apply initRAG_ready.
Qed.

(** X5. A failure to create the collection is not an error: it is logged
    with its message, the collection is fetched all the same and, when the
    chat model is there or can be created, [initRAG] returns with both
    set. *)
Theorem X5_createCollection_fault_is_logged (st : State) (e : JSError) :
  collection st = false →
  sv_createCollection svc (history st) = Thrown e →
  let tried :=
    [ {| ev_call := CCreateCollection; ev_ok := false |};
      {| ev_call :=
           CConsoleLog [VStr ([0x2139; 0xFE0F] ++ u16 " Collection may already exist:");
                        err_message e];
         ev_ok := true |} ] in
  let fetched :=
    tried
    ++ [ {| ev_call := CGetCollection; ev_ok := true |};
         {| ev_call := CConsoleLog [VStr ([0x2705] ++ u16 " Chroma collection ready")];
            ev_ok := true |} ] in
  sv_getCollection svc (history st ++ tried) = Returned tt →
  (model st = false → sv_newChatModel svc (history st ++ fetched) = Returned tt) →
  ∃ st',
    initRAG svc st = (Returned tt, st')
    ∧ collection st' = true
    ∧ model st' = true
    ∧ history st'
      = history st ++ fetched
        ++ (if model st then []
            else [ {| ev_call := CNewChatModel; ev_ok := true |};
                   {| ev_call :=
                        CConsoleLog
                          [VStr ([0x2705]
                                 ++ u16 " Mistral 7B (via OpenRouter) initialized")];
                      ev_ok := true |} ]).
Proof.
  intros Hc Hcreate tried fetched Hget Hnew.
  unfold initRAG, bind, gets, ret, try_catch, call, console_log, call, modify.
  rewrite Hc, Hcreate. cbn [is_returned history record_event].
  match goal with
  | |- context [sv_getCollection svc ?h] =>
      replace (sv_getCollection svc h) with (Returned (A := unit) tt)
        by (rewrite <- Hget; unfold tried; by rewrite <- app_assoc)
  end.
  cbn [is_returned history record_event set_collection model].
  destruct (model st) eqn:Hm.
  - eexists. split; [reflexivity |]. split; [reflexivity |]. split; [exact Hm |].
    cbn [history record_event set_collection]. unfold fetched, tried.
    by rewrite <- !app_assoc.
  - match goal with
    | |- context [sv_newChatModel svc ?h] =>
        replace (sv_newChatModel svc h) with (Returned (A := unit) tt)
          by (rewrite <- (Hnew eq_refl); unfold fetched, tried;
              cbn [history record_event set_collection]; by rewrite <- !app_assoc)
    end.
    cbn [is_returned history record_event set_collection set_model model].
    eexists. split; [reflexivity |]. split; [reflexivity |]. split; [reflexivity |].
    cbn [history record_event set_collection set_model]. unfold fetched, tried.
    by rewrite <- !app_assoc.
Qed.

(** X6. A failure to fetch the collection is fatal: [initRAG] throws it,
    the collection stays unset, and the chat model is not created. *)
Theorem X6_getCollection_fault_is_fatal (st : State) (e : JSError) :
  collection st = false →
  sv_createCollection svc (history st) = Returned tt →
  sv_getCollection svc (history st ++ [ {| ev_call := CCreateCollection; ev_ok := true |} ])
  = Thrown e →
  ∃ st',
    initRAG svc st = (Thrown e, st')
    ∧ collection st' = false
    ∧ model st' = model st
    ∧ history st'
      = history st ++ [ {| ev_call := CCreateCollection; ev_ok := true |};
                        {| ev_call := CGetCollection; ev_ok := false |} ].
Proof.
  intros Hc Hcreate Hget.
  unfold initRAG, bind, gets, ret, try_catch, call, console_log, call, modify.
  rewrite Hc, Hcreate. cbn [is_returned history record_event]. rewrite Hget.
  eexists. split; [reflexivity |]. cbn. by rewrite <- app_assoc.
Qed.

End Initialisation.

(** ** What the operations leave alone *)

Section Keeps.

Context {A : Type}.

Lemma keeps_ret (a : A) : keeps_ready (ret a).
Proof. intros st o st' H. by inversion H; subst. Qed.

Lemma keeps_throw (e : JSError) : keeps_ready (throw (A := A) e).
Proof. intros st o st' H. by inversion H; subst. Qed.

Lemma keeps_gets (f : State -> A) : keeps_ready (gets f).
Proof. intros st o st' H. by inversion H; subst. Qed.

Lemma keeps_call (c : Call) (answer : list Event -> Outcome A) :
  keeps_ready (call c answer).
Proof. intros st o st' H. by inversion H; subst. Qed.

Lemma keeps_bind {B} (m : M B) (k : B -> M A) :
  keeps_ready m → (∀ b, keeps_ready (k b)) → keeps_ready (bind m k).
Proof.
  intros Hm Hk st o st' H. unfold bind in H.
  destruct (m st) as [[b | e] st1] eqn:E; destruct (Hm _ _ _ E) as (H1 & H2 & H3).
  - destruct (Hk b _ _ _ H) as (H4 & H5 & H6). auto.
  - inversion H; subst. auto.
Qed.

Lemma keeps_try_catch (body : M A) (handler : JSError -> M A) :
  keeps_ready body → (∀ e, keeps_ready (handler e)) →
  keeps_ready (try_catch body handler).
Proof.
  intros Hb Hh st o st' H. unfold try_catch in H.
  destruct (body st) as [[a | e] st1] eqn:E; destruct (Hb _ _ _ E) as (H1 & H2 & H3).
  - inversion H; subst. auto.
  - destruct (Hh e _ _ _ H) as (H4 & H5 & H6). auto.
Qed.

End Keeps.

Lemma keeps_modify (f : State -> State) :
  (∀ st, (embedPipeline st = true → embedPipeline (f st) = true)
         ∧ (collection st = true → collection (f st) = true)
         ∧ (model st = true → model (f st) = true)) →
  keeps_ready (modify f).
Proof. intros Hf st o st' H. inversion H; subst. apply Hf. Qed.

Lemma keeps_for_each {A} (xs : list A) (body : A -> M unit) :
  (∀ x, keeps_ready (body x)) → keeps_ready (for_each xs body).
Proof.
  intros Hb. induction xs as [| x xs IH]; [apply keeps_ret |].
  cbn [for_each]. apply keeps_bind; [apply Hb | intros _; apply IH].
Qed.

Lemma emits_for_each {A} (Q : Event -> bool) (xs : list A) (body : A -> M unit) :
  (∀ x, emits_only Q (body x)) → emits_only Q (for_each xs body).
Proof.
  intros Hb. induction xs as [| x xs IH]; [apply emits_ret |].
  cbn [for_each]. apply emits_bind; [apply Hb | intros _; apply IH].
Qed.

Ltac keeps :=
  repeat first
    [ apply keeps_ret | apply keeps_throw | apply keeps_gets | apply keeps_call
    | apply keeps_modify; intros ?; cbn; tauto
    | apply keeps_for_each; intros ?
    | apply keeps_bind; [| intros ? ]
    | apply keeps_try_catch; [| intros ? ]
    | match goal with |- keeps_ready (if ?b then _ else _) => destruct b end
    | match goal with |- keeps_ready (match ?x with _ => _ end) => destruct x end ].

Lemma omap_none {B} (f : Event -> option B) (Q : Event -> bool) (h : list Event) :
  (∀ ev, Q ev = true → f ev = None) → forallb Q h = true → omap f h = [].
Proof.
  intros HQ. induction h as [| ev h IH]; [reflexivity |]. cbn [forallb].
  intros [Hev Hh]%andb_prop. unfold omap in *. cbn [list_omap].
  by rewrite (HQ ev Hev), IH.
Qed.

Section Operations.

Context (host : Host) (svc : Services).

(** X7. No operation of the service clears a module-level variable: once
    the embedding pipeline, the collection handle or the chat model is set,
    it is still set after any run of [queryInsights] or [buildEmbeddings],
    whether the run returns or throws. *)
Theorem X7_initialisation_is_kept (userQuery : JSValue) :
  keeps_ready (queryInsights host svc userQuery)
  ∧ keeps_ready (buildEmbeddings host svc).
Proof.
  split.
  - unfold queryInsights, retrieve, generate, retry, invoke, initRAG, getEmbedding,
      initEmbed, console_log. keeps.
  - unfold buildEmbeddings, ingest_row, embed_row, toString_method, initRAG,
      getEmbedding, initEmbed, console_log, console_error. keeps.
Qed.

(** X8. [queryInsights] only reads: whatever happens, the calls it makes are
    initialisation, embedding, queries of the index, each for exactly three
    neighbours, generator calls and [console.log]. It never adds to the
    index, never queries the store and never writes to the error console. *)
Theorem X8_queryInsights_only_reads (userQuery : JSValue) :
  emits_only insight_call (queryInsights host svc userQuery).
Proof.
  unfold queryInsights, retrieve, generate, retry, invoke, initRAG, getEmbedding,
    initEmbed, console_log. emits.
Qed.

(** X9. [buildEmbeddings] never queries the index and never calls the
    generator, whatever happens. *)
Theorem X9_buildEmbeddings_never_generates :
  emits_only ingestion_call (buildEmbeddings host svc).
Proof.
  unfold buildEmbeddings. emits; try (apply emits_for_each; intros ?);
    unfold ingest_row, embed_row, toString_method, initRAG,
      getEmbedding, initEmbed, console_log, console_error; emits.
Qed.

Lemma initRAG_emits_setup : emits_only setup_call (initRAG svc).
Proof. unfold initRAG, console_log. emits. Qed.

Lemma setup_quiet (h : list Event) :
  forallb setup_call h = true → query_sizes h = [] ∧ invocations h = [].
Proof.
  intros H. split; apply (omap_none _ setup_call); try done;
    intros ev; unfold setup_call; by destruct (ev_call ev).
Qed.

Lemma embedding_quiet (h : list Event) :
  forallb embedding_call h = true → query_sizes h = [] ∧ invocations h = [].
Proof.
  intros H. split; apply (omap_none _ embedding_call); try done;
    intros ev; unfold embedding_call; by destruct (ev_call ev).
Qed.

(** X10. When the query cannot be embedded, [queryInsights] throws the
    embedding error: the index is not queried and the generator is not
    called. *)
Theorem X10_query_embedding_fault
    (userQuery : JSValue) (st st1 st2 : State) (e : JSError) :
  initRAG svc st = (Returned tt, st1) →
  getEmbedding svc userQuery st1 = (Thrown e, st2) →
  queryInsights host svc userQuery st = (Thrown e, st2)
  ∧ query_sizes (history st2) = query_sizes (history st)
  ∧ invocations (history st2) = invocations (history st).
Proof.
  intros Hinit Hembed. split.
  - unfold queryInsights, retrieve, bind. by rewrite Hinit, Hembed.
  - destruct (initRAG_emits_setup _ _ _ Hinit) as (new1 & Hh1 & [Hq1 Hi1]%setup_quiet).
    destruct (getEmbedding_emits svc _ _ _ _ Hembed)
      as (new2 & Hh2 & [Hq2 Hi2]%embedding_quiet).
    rewrite Hh2, Hh1. unfold query_sizes in *. rewrite !invocations_app, !omap_app.
    by rewrite Hq1, Hq2, Hi1, Hi2, !app_nil_r.
Qed.

(** X11. When the index cannot be queried, [queryInsights] throws the
    index's error without calling the generator. *)
Theorem X11_index_query_fault
    (userQuery : JSValue) (st st1 st2 : State) (vec : Embedding) (e : JSError) :
  initRAG svc st = (Returned tt, st1) →
  getEmbedding svc userQuery st1 = (Returned vec, st2) →
  sv_collectionQuery svc (history st2) vec 3 = Thrown e →
  ∃ st',
    queryInsights host svc userQuery st = (Thrown e, st')
    ∧ history st'
      = history st2 ++ [ {| ev_call := CCollectionQuery vec 3; ev_ok := false |} ]
    ∧ invocations (history st') = invocations (history st).
Proof.
  intros Hinit Hembed Hquery. eexists. split; [| split].
  - unfold queryInsights, retrieve, bind, call. by rewrite Hinit, Hembed, Hquery.
  - reflexivity.
  - destruct (initRAG_emits_setup _ _ _ Hinit) as (new1 & Hh1 & [Hq1 Hi1]%setup_quiet).
    destruct (getEmbedding_emits svc _ _ _ _ Hembed)
      as (new2 & Hh2 & [Hq2 Hi2]%embedding_quiet).
    cbn [history record_event is_returned].
    rewrite Hh2, Hh1, !invocations_app, Hi1, Hi2. cbn. by rewrite !app_nil_r.
Qed.

(** X12. When the index answers [null] or [undefined], or an object whose
    [metadatas] is missing or is no array, [queryInsights] returns the "no
    valid expenses" sentinel right after the query. *)
Theorem X12_missing_metadatas_is_no_data
    (userQuery : JSValue) (st st1 st2 : State) (vec : Embedding)
    (results : option QueryResult) :
  initRAG svc st = (Returned tt, st1) →
  getEmbedding svc userQuery st1 = (Returned vec, st2) →
  sv_collectionQuery svc (history st2) vec 3 = Returned results →
  results = None ∨ (∃ r, results = Some r ∧ metadatas r = None) →
  queryInsights host svc userQuery st
  = (Returned no_expenses_sentinel, record_event (CCollectionQuery vec 3) true st2).
Proof.
  intros Hinit Hembed Hquery Hmissing.
  unfold queryInsights, retrieve, bind, call, ret.
  rewrite Hinit, Hembed, Hquery.
  assert (collect_expenses host results = []) as ->; [| reflexivity].
  unfold collect_expenses, raw_hits.
  destruct Hmissing as [-> | (r & -> & ->)]; reflexivity.
Qed.

End Operations.

(** ** The shape of an insight *)

Lemma trimStart_head (s : jsstring) (c : N) :
  head (trimStart s) = Some c → is_space c = false.
Proof.
  induction s as [| a s IH]; cbn [trimStart]; [discriminate |].
  destruct (is_space a) eqn:E; [exact IH |]. by intros [= <-].
Qed.

Lemma trimStart_suffix (s : jsstring) : ∃ pre, s = pre ++ trimStart s.
Proof.
  induction s as [| a s [pre IH]]; [by exists [] |]. cbn [trimStart].
  destruct (is_space a); [| by exists []].
  exists (a :: pre). cbn. by rewrite <- IH.
Qed.

Lemma last_rev (l : jsstring) : last (rev l) = head l.
Proof. destruct l as [| a l]; [reflexivity |]. cbn [rev]. apply last_snoc. Qed.

Lemma head_rev (l : jsstring) : head (rev l) = last l.
Proof. by rewrite <- (last_rev (rev l)), rev_involutive. Qed.

Lemma trim_no_outer_space (s : jsstring) : no_outer_space (trim s).
Proof.
  unfold trim. split; intros c Hc.
  - rewrite head_rev in Hc.
    destruct (trimStart_suffix (rev (trimStart s))) as [pre Hpre].
    apply (trimStart_head s). rewrite <- last_rev, Hpre, last_app. by rewrite Hc.
  - rewrite last_rev in Hc. by apply trimStart_head in Hc.
Qed.

Lemma no_insight_sentinel_shape :
  no_insight_sentinel ≠ [] ∧ no_outer_space no_insight_sentinel.
Proof.
  split; [discriminate |]. split; intros c Hc; vm_compute in Hc; by inversion Hc.
Qed.

Lemma no_expenses_sentinel_shape :
  no_expenses_sentinel ≠ [] ∧ no_outer_space no_expenses_sentinel.
Proof.
  split; [discriminate |]. split; intros c Hc; vm_compute in Hc; by inversion Hc.
Qed.

Lemma cleaned_or_sentinel_shape (text : jsstring) :
  let s := or_else (Some (clean text)) no_insight_sentinel in
  s ≠ [] ∧ no_outer_space s.
Proof.
  cbv zeta. pose proof (trim_no_outer_space (strip_markers text)) as H.
  unfold or_else, clean in *. destruct (trim (strip_markers text)) as [| c t].
  - apply no_insight_sentinel_shape.
  - by split.
Qed.

Section Shape.

Context (host : Host) (svc : Services).

Lemma generate_shape (expenses : list Expense) (st st' : State) (s : jsstring) :
  generate host svc expenses st = (Returned s, st') →
  s ≠ [] ∧ no_outer_space s.
Proof.
  rewrite generate_eq. cbv zeta.
  destruct (sv_modelInvoke svc (history st) _) as [r1 | e1]; [| discriminate].
  destruct (degenerate _).
  - destruct (sv_modelInvoke svc _ _) as [r2 | e2]; [| discriminate].
    intros [= <- _]. apply cleaned_or_sentinel_shape.
  - intros [= <- _]. apply cleaned_or_sentinel_shape.
Qed.

(** X13. Whenever [queryInsights] returns, the string it returns is not
    empty and neither starts nor ends with white space. *)
Theorem X13_insight_is_never_blank
    (userQuery : JSValue) (st st' : State) (s : jsstring) :
  queryInsights host svc userQuery st = (Returned s, st') →
  s ≠ [] ∧ no_outer_space s.
Proof.
  unfold queryInsights, bind.
  destruct (retrieve host svc userQuery st) as [[expenses | e] st1]; [| discriminate].
  destruct (length expenses =? 0)%nat.
  - intros [= <- _]. apply no_expenses_sentinel_shape.
  - apply generate_shape.
Qed.

(** X14. An answer of fewer than ten code units is never returned as it
    came from the first generator call: when the generation phase returns
    such a string, the retry has been made. *)
Theorem X14_short_insight_comes_from_retry
    (expenses : list Expense) (st st' : State) (s : jsstring) :
  generate host svc expenses st = (Returned s, st') →
  (length s < 10)%nat →
  let context := structuredContext host expenses in
  history st'
  = history st ++ [invoked (prompt context) true; invoked (simplePrompt context) true].
Proof.
  rewrite generate_eq. cbv zeta.
  destruct (sv_modelInvoke svc (history st) _) as [r1 | e1]; [| discriminate].
  destruct (degenerate _) eqn:Hdeg.
  - destruct (sv_modelInvoke svc _ _) as [r2 | e2]; [| discriminate].
    intros [= _ <-] _. cbn [history record_event]. by rewrite <- app_assoc.
  - intros [= <- _] Hshort. exfalso. unfold degenerate, or_else in *.
    destruct (clean _) as [| c t]; [discriminate |].
    apply Nat.ltb_ge in Hdeg. lia.
Qed.

End Shape.

(** ** More on ingestion *)

Section MoreIngestion.

Context (host : Host) (svc : Services).

Lemma embed_requests_app (h1 h2 : list Event) :
  embed_requests (h1 ++ h2) = embed_requests h1 ++ embed_requests h2.
Proof. apply omap_app. Qed.

(** With the pipeline loaded, [getEmbedding] makes one call. *)
Lemma getEmbedding_loaded (text : JSValue) (st st' : State) o :
  embedPipeline st = true →
  getEmbedding svc text st = (o, st') →
  embedPipeline st' = true
  ∧ ∃ ok, history st' = history st ++ [ {| ev_call := CEmbedPipeline text; ev_ok := ok |} ].
Proof.
  intros Hready. unfold getEmbedding, initEmbed, bind, gets, call, ret, throw.
  rewrite Hready.
  destruct (sv_embedPipeline svc (history st) text) as [[items | data | | |] | e];
    intros [= _ <-]; cbn; (split; [exact Hready | by eexists]).
Qed.

(** One iteration with the pipeline loaded: the row's description is sent
    for embedding, once, and at most one entry, the row's, is added. *)
Lemma ingest_row_loaded (exp : Row) (st : State) :
  embedPipeline st = true →
  ∃ st' new,
    ingest_row host svc exp st = (Returned tt, st')
    ∧ history st' = history st ++ new
    ∧ embedPipeline st' = true
    ∧ embed_requests new = [VStr (describe host exp)]
    ∧ (added new = [] ∨ added new = [index_entry host exp]).
Proof.
  intros Hready. unfold ingest_row, try_catch, embed_row, bind.
  destruct (getEmbedding svc (VStr (describe host exp)) st) as [[vec | e] st0] eqn:E;
    destruct (getEmbedding_loaded _ _ _ _ Hready E) as (Hready0 & ok & Hh0).
  - assert (∀ id, id = ToString host (row_id exp) →
              ∃ st' new,
                match call (CCollectionAdd id vec (metadata_of host exp))
                        (fun h => sv_collectionAdd svc h id vec (metadata_of host exp)) st0
                with
                | (Thrown e, st1) => console_error (failure_report host exp e) st1
                | r => r
                end = (Returned tt, st')
                ∧ history st' = history st ++ new
                ∧ embedPipeline st' = true
                ∧ embed_requests new = [VStr (describe host exp)]
                ∧ (added new = [] ∨ added new = [index_entry host exp])) as Hadd.
    { intros id ->. unfold call, console_error, call.
      destruct (sv_collectionAdd svc (history st0) _ vec _) as [[] | e];
        cbn [is_returned]; eexists _, _; (split; [reflexivity |]);
        cbn [history record_event embedPipeline]; rewrite Hh0, <- ?app_assoc;
        (split; [reflexivity |]); (split; [exact Hready0 |]);
        (split; [reflexivity |]); [by right | by left]. }
    destruct (row_id exp) eqn:Hid; cbn [toString_method];
      try (apply Hadd; reflexivity);
      unfold throw, console_error, call; eexists _, _; (split; [reflexivity |]);
      cbn [history record_event embedPipeline is_returned]; rewrite Hh0, <- ?app_assoc;
      (split; [reflexivity |]); (split; [exact Hready0 |]);
      (split; [reflexivity |]); by left.
  - unfold console_error, call. eexists _, _. split; [reflexivity |].
    cbn [history record_event embedPipeline is_returned]. rewrite Hh0, <- app_assoc.
    split; [reflexivity |]. split; [exact Hready0 |]. split; [reflexivity |]. by left.
Qed.

Lemma for_each_ingest_row_loaded (rows : list Row) (st : State) :
  embedPipeline st = true →
  ∃ st' new,
    for_each rows (ingest_row host svc) st = (Returned tt, st')
    ∧ history st' = history st ++ new
    ∧ embed_requests new = map (fun exp => VStr (describe host exp)) rows
    ∧ added new `sublist_of` map (index_entry host) rows.
Proof.
  revert st. induction rows as [| exp rows IH]; intros st Hready.
  - exists st, []. repeat split; [by rewrite app_nil_r | constructor].
  - destruct (ingest_row_loaded exp st Hready)
      as (st1 & new1 & Hrun & Hh1 & Hready1 & Hreq & Hadd).
    destruct (IH st1 Hready1) as (st' & new2 & Hloop & Hh2 & Hreqs & Hadds).
    exists st', (new1 ++ new2). split; [| split; [| split]].
    + cbn [for_each]. unfold bind. by rewrite Hrun.
    + by rewrite Hh2, Hh1, app_assoc.
    + rewrite embed_requests_app, Hreq, Hreqs. reflexivity.
    + rewrite added_app. cbn [map]. destruct Hadd as [-> | ->]; cbn [app].
      * by apply sublist_cons.
      * by apply sublist_skip.
Qed.

(** The run of [buildEmbeddings] after the rows are read. *)
Lemma buildEmbeddings_after_rows (st st1 : State) (rows : list Row) :
  initRAG svc st = (Returned tt, st1) →
  sv_poolQuery svc (history st1) select_expenses = Returned rows →
  ∃ st2, history st2 = history st1
          ++ [ {| ev_call := CPoolQuery select_expenses; ev_ok := true |};
               {| ev_call :=
                    CConsoleLog
                      [VStr ([0xD83E; 0xDDFE] ++ u16 " Found "
                             ++ decimal (N.of_nat (length rows))
                             ++ u16 " expenses to embed...")];
                  ev_ok := true |} ]
         ∧ embedPipeline st2 = embedPipeline st1
         ∧ ∀ st3, for_each rows (ingest_row host svc) st2 = (Returned tt, st3) →
             buildEmbeddings host svc st
             = (Returned RetUndefined,
                record_event
                  (CConsoleLog [VStr ([0x2705] ++ u16 " Expense embeddings stored in Chroma!")])
                  true st3).
Proof.
  intros Hinit Hpool. eexists. split; [| split]; cycle 2.
  - intros st3 Hloop. unfold buildEmbeddings. unfold bind at 1. rewrite Hinit.
    unfold bind at 1. unfold call at 1. rewrite Hpool. cbn [is_returned].
    unfold bind at 1. unfold console_log at 1. unfold call at 1. cbn [is_returned].
    unfold bind at 1. rewrite Hloop.
    unfold bind, console_log, call, ret. cbn [is_returned]. reflexivity.
  - cbn [history record_event]. by rewrite <- app_assoc.
  - reflexivity.
Qed.

Lemma setup_untouched (h : list Event) :
  forallb setup_call h = true → embed_requests h = [] ∧ added h = [].
Proof.
  intros H. split; apply (omap_none _ setup_call); try done;
    intros ev; unfold setup_call; by destruct (ev_call ev).
Qed.

(** X15. A fault of initialisation or of the row query is fatal to
    ingestion: [buildEmbeddings] throws it, and no row has been embedded or
    added. *)
Theorem X15_ingestion_fatal_faults (st st' : State) (e : JSError) :
  (initRAG svc st = (Thrown e, st')
   ∨ ∃ st1, initRAG svc st = (Returned tt, st1)
            ∧ sv_poolQuery svc (history st1) select_expenses = Thrown e
            ∧ st' = record_event (CPoolQuery select_expenses) false st1) →
  buildEmbeddings host svc st = (Thrown e, st')
  ∧ embed_requests (history st') = embed_requests (history st)
  ∧ added (history st') = added (history st).
Proof.
  intros [Hinit | (st1 & Hinit & Hpool & ->)].
  - split; [unfold buildEmbeddings, bind; by rewrite Hinit |].
    destruct (initRAG_emits_setup svc _ _ _ Hinit) as (new & -> & [Hr Ha]%setup_untouched).
    by rewrite embed_requests_app, added_app, Hr, Ha, !app_nil_r.
  - split; [unfold buildEmbeddings, bind, call; by rewrite Hinit, Hpool |].
    destruct (initRAG_emits_setup svc _ _ _ Hinit) as (new & Hh & [Hr Ha]%setup_untouched).
    cbn [history record_event]. rewrite Hh, !embed_requests_app, !added_app, Hr, Ha.
    cbn. by rewrite !app_nil_r.
Qed.

(** X16. Every row is accounted for: in a completed ingestion, the number
    of acknowledged additions plus the number of failure reports is the
    number of rows read. *)
Theorem X16_additions_and_reports_add_up (st st1 : State) (rows : list Row) :
  initRAG svc st = (Returned tt, st1) →
  sv_poolQuery svc (history st1) select_expenses = Returned rows →
  ∃ st' new,
    buildEmbeddings host svc st = (Returned RetUndefined, st')
    ∧ history st' = history st1 ++ new
    ∧ (length (indexed_ids new) + length (error_reports new) = length rows)%nat.
Proof.
  intros Hinit Hpool.
  destruct (buildEmbeddings_run host svc st st1 rows Hinit Hpool)
    as (st' & new & Hrun & Hh & Hall).
  exists st', new. split; [exact Hrun |]. split; [exact Hh |].
  rewrite row_results_split. symmetry. by eapply Forall2_length.
Qed.

(** X17. With the embedding pipeline loaded, a completed ingestion asks for
    exactly one embedding per row, in row order, and the text embedded for
    a row is its description; what it adds to the index are entries of the
    rows, id and metadata, in row order. *)
Theorem X17_one_embedding_per_row (st st1 : State) (rows : list Row) :
  initRAG svc st = (Returned tt, st1) →
  embedPipeline st1 = true →
  sv_poolQuery svc (history st1) select_expenses = Returned rows →
  ∃ st' new,
    buildEmbeddings host svc st = (Returned RetUndefined, st')
    ∧ history st' = history st1 ++ new
    ∧ embed_requests new = map (fun exp => VStr (describe host exp)) rows
    ∧ added new `sublist_of` map (index_entry host) rows.
Proof.
  intros Hinit Hready Hpool.
  destruct (buildEmbeddings_after_rows st st1 rows Hinit Hpool)
    as (st2 & Hh2 & Hready2 & Hbuild).
  rewrite Hready in Hready2.
  destruct (for_each_ingest_row_loaded rows st2 Hready2)
    as (st3 & new & Hloop & Hh3 & Hreqs & Hadds).
  eexists _, _. split; [exact (Hbuild st3 Hloop) |].
  split; [| split].
  - cbn [history record_event]. rewrite Hh3, Hh2, <- !app_assoc. reflexivity.
  - rewrite !embed_requests_app, Hreqs. cbn. by rewrite app_nil_r.
  - rewrite !added_app. cbn. by rewrite app_nil_r.
Qed.

(** The hits made of the metadata of rows are retrieved as the rows whose
    amount is numeric. *)
Lemma filter_metadata_of (rows : list Row) :
  map (expense_of host)
      (filter (fun m => corrupt_hit host m = false) (map (metadata_of host) rows))
  = map (expense_of_row host)
        (filter (fun exp => js_isNaN (ToNumber host (row_amount exp)) = false) rows).
Proof.
  induction rows as [| exp rows IH]; [reflexivity |].
  cbn [map]. rewrite !filter_cons.
  change (corrupt_hit host (metadata_of host exp))
    with (js_isNaN (ToNumber host (row_amount exp))).
  destruct (decide (js_isNaN (ToNumber host (row_amount exp)) = false)); cbn [map].
  - by rewrite IH.
  - exact IH.
Qed.

(** Hits that are all metadata of [entries], themselves entries of [rows],
    are the metadata of a selection of [rows] whose entries are among
    [entries]. *)
Lemma hits_of_entries (rows : list Row) (entries : list (jsstring * Metadata))
    (hits : list Metadata) :
  entries ⊆ map (index_entry host) rows →
  hits ⊆ entries.*2 →
  ∃ picked, picked ⊆ rows
            ∧ map (index_entry host) picked ⊆ entries
            ∧ hits = map (metadata_of host) picked.
Proof.
  intros Hentries. induction hits as [| m hits IH]; intros Hsub.
  - exists []. split; [set_solver |]. split; [set_solver | reflexivity].
  - destruct IH as (picked & Hpicked & Hin & ->); [set_solver |].
    assert (m ∈ entries.*2) as Hm by set_solver.
    apply list_elem_of_fmap in Hm as ([id md] & -> & Hentry).
    pose proof (Hentries _ Hentry) as Hrow.
    apply list_elem_of_In, in_map_iff in Hrow as (exp & Heq & Hexp).
    apply list_elem_of_In in Hexp.
    exists (exp :: picked). split; [set_solver |]. split.
    + cbn [map]. rewrite Heq. set_solver.
    + cbn [map snd]. f_equal. by injection Heq as _ <-.
Qed.

(** A completed ingestion leaves the collection handle and the chat model
    set, and adds nothing but entries of the rows it read. *)
Lemma buildEmbeddings_added (st st1 : State) (rows : list Row) :
  initRAG svc st = (Returned tt, st1) →
  sv_poolQuery svc (history st1) select_expenses = Returned rows →
  ∃ st' new,
    buildEmbeddings host svc st = (Returned RetUndefined, st')
    ∧ history st' = history st1 ++ new
    ∧ collection st' = true ∧ model st' = true
    ∧ added new `sublist_of` map (index_entry host) rows.
Proof.
  intros Hinit Hpool. destruct (initRAG_sets svc _ _ Hinit) as [Hc Hm].
  unfold buildEmbeddings. unfold bind at 1. rewrite Hinit.
  unfold bind at 1. unfold call at 1. rewrite Hpool. cbn [is_returned].
  unfold bind at 1. unfold console_log at 1. unfold call at 1. cbn [is_returned].
  unfold bind at 1.
  match goal with
  | |- context [for_each rows (ingest_row host svc) ?s] =>
      destruct (for_each_ingest_row_settled host svc rows s)
        as (st3 & new & Hrun & Hh & _ & Hsub);
      assert (keeps_ready (for_each rows (ingest_row host svc))) as Hkeeps
        by (unfold ingest_row, embed_row, toString_method, getEmbedding, initEmbed,
              console_error; keeps);
      destruct (Hkeeps s _ _ Hrun) as (_ & Hc3 & Hm3)
  end.
  rewrite Hrun.
  unfold bind, console_log, call, ret. cbn [is_returned].
  eexists _, _. split; [reflexivity |].
  cbn [history record_event collection model] in *. rewrite Hh. cbn [history record_event].
  split; [rewrite <- !app_assoc; reflexivity |].
  split; [by apply Hc3 |]. split; [by apply Hm3 |].
  rewrite !added_app. cbn. by rewrite app_nil_r.
Qed.

(** X18. What a query retrieves after an ingestion are expenses of ingested
    rows, provided the index hands back metadata as it was given them:
    when nothing had been added before the ingestion, and the index
    answers the query with metadata among those whose addition it
    acknowledged, the hits are the metadata of rows read by the ingestion
    whose entries were added, and the expenses retrieved are, hit after
    hit, the note, the amount as a number and the date of those of these
    rows whose amount as a number is not [NaN]. *)
Theorem X18_added_rows_come_back (st st1 st2 : State) (rows : list Row)
    (userQuery : JSValue) (queryVec : Embedding) (results : option QueryResult) :
  added (history st) = [] →
  initRAG svc st = (Returned tt, st1) →
  sv_poolQuery svc (history st1) select_expenses = Returned rows →
  let ingested := snd (buildEmbeddings host svc st) in
  getEmbedding svc userQuery ingested = (Returned queryVec, st2) →
  sv_collectionQuery svc (history st2) queryVec 3 = Returned results →
  raw_hits results ⊆ (added (history st2)).*2 →
  ∃ picked,
    picked ⊆ rows
    ∧ map (index_entry host) picked ⊆ added (history st2)
    ∧ raw_hits results = map (metadata_of host) picked
    ∧ retrieve host svc userQuery ingested
      = (Returned
           (map (expense_of_row host)
              (filter (fun exp => js_isNaN (ToNumber host (row_amount exp)) = false)
                 picked)),
         record_event (CCollectionQuery queryVec 3) true st2).
Proof.
  intros Hnone Hinit Hpool ingested Hembed Hquery Hfaithful.
  destruct (buildEmbeddings_added st st1 rows Hinit Hpool)
    as (st' & new & Hrun & Hh & Hc & Hm & Hsub).
  assert (ingested = st') as -> by (unfold ingested; by rewrite Hrun).
  destruct (initRAG_emits_setup svc _ _ _ Hinit) as (new1 & Hh1 & [_ Ha1]%setup_untouched).
  destruct (getEmbedding_emits svc _ _ _ _ Hembed) as (new2 & Hh2 & HQ2).
  pose proof (added_none _ _ embedding_not_row_call HQ2) as Ha2.
  assert (added (history st2) = added new) as Hadded.
  { rewrite Hh2, Hh, Hh1, !added_app, Hnone, Ha1, Ha2. cbn. by rewrite app_nil_r. }
  destruct (hits_of_entries rows (added (history st2)) (raw_hits results))
    as (picked & Hpicked & Hentries & Hhits).
  { rewrite Hadded. by apply sublist_subseteq. }
  { exact Hfaithful. }
  exists picked. split; [exact Hpicked |]. split; [exact Hentries |].
  split; [exact Hhits |].
  unfold retrieve, bind, call, ret.
  rewrite (initRAG_ready svc st' Hc Hm), Hembed, Hquery. cbn [is_returned].
  by rewrite collect_expenses_filter, Hhits, filter_metadata_of.
Qed.

End MoreIngestion.

(** ** More on aggregation and trend *)

Lemma js_ltb_irrefl (a : jsstring) : js_ltb a a = false.
Proof.
  induction a as [| x a IH]; [reflexivity |]. cbn [js_ltb].
  by rewrite N.ltb_irrefl.
Qed.

Lemma js_ltb_trans (a b c : jsstring) :
  js_ltb a b = true → js_ltb b c = true → js_ltb a c = true.
Proof.
  revert b c. induction a as [| x a IH]; intros [| y b] [| z c]; cbn [js_ltb];
    try done.
  destruct (N.ltb_spec x y), (N.ltb_spec y x), (N.ltb_spec y z), (N.ltb_spec z y),
    (N.ltb_spec x z), (N.ltb_spec z x); try done; try lia.
  apply IH.
Qed.

Lemma js_ltb_trichotomy (a b : jsstring) :
  js_ltb a b = true ∨ a = b ∨ js_ltb b a = true.
Proof.
  revert b. induction a as [| x a IH]; intros [| y b]; cbn [js_ltb]; auto.
  destruct (N.ltb_spec x y), (N.ltb_spec y x); auto; try lia.
  assert (x = y) as -> by lia.
  destruct (IH b) as [? | [-> | ?]]; auto.
Qed.

Lemma js_ltb_asym (a b : jsstring) : js_ltb a b = true → js_ltb b a = false.
Proof.
  intros H. destruct (js_ltb b a) eqn:E; [| reflexivity].
  pose proof (js_ltb_trans _ _ _ H E) as Hc. by rewrite js_ltb_irrefl in Hc.
Qed.

Lemma js_le_cases (a b : jsstring) : js_le a b ↔ a = b ∨ js_ltb a b = true.
Proof.
  unfold js_le. split.
  - intros H. destruct (js_ltb_trichotomy a b) as [? | [? | ?]]; auto. congruence.
  - intros [-> | H]; [apply js_ltb_irrefl | by apply js_ltb_asym].
Qed.

#[local] Instance js_le_total : Total js_le.
Proof.
  intros a b. rewrite !js_le_cases.
  destruct (js_ltb_trichotomy a b) as [? | [? | ?]]; auto.
Qed.

#[local] Instance js_le_trans : Transitive js_le.
Proof.
  intros a b c. rewrite !js_le_cases. intros [-> | Hab] [-> | Hbc]; auto.
  right. by eapply js_ltb_trans.
Qed.

Lemma last_two {A} (l : list A) :
  (2 ≤ length l)%nat → ∃ pre a b, l = pre ++ [a; b].
Proof.
  intros Hlen. destruct (rev l) as [| b [| a r]] eqn:E.
  - apply (f_equal (@length A)) in E. rewrite length_rev in E. cbn in E. lia.
  - apply (f_equal (@length A)) in E. rewrite length_rev in E. cbn in E. lia.
  - exists (rev r), a, b. rewrite <- (rev_involutive l), E. cbn [rev].
    by rewrite <- app_assoc.
Qed.

Section MoreAggregation.

Context (host : Host).

(** X19. The total is the sum of the amounts of the expenses, added one
    after the other from zero, whatever the amounts; with a single expense
    it is that expense's amount. *)
Theorem X19_total_is_sum (expenses : list Expense) :
  total (aggregate host expenses) = sum_amounts (map amount expenses)
  ∧ ∀ e : Expense, same_value_zero (total (aggregate host [e])) (amount e) = true.
Proof. split; [apply aggregate_total | apply aggregate_single]. Qed.

(** X20. The value stored for a month is the sum of the amounts of the
    expenses of that month, added in order from zero, provided no running
    sum of these amounts is [NaN]. *)
Theorem X20_month_value_is_month_sum (expenses : list Expense) (label : jsstring) :
  label ∈ month_labels host expenses →
  no_nan_from PrimFloat.zero (month_amounts host label expenses) = true →
  ∃ v, monthMap (aggregate host expenses) !! label = Some v
       ∧ same_value_zero v (sum_amounts (month_amounts host label expenses)) = true.
Proof.
  intros Hin Hnan. pose proof (aggregate_month_value host expenses label Hnan) as H.
  rewrite <- aggregate_dom in Hin. apply elem_of_dom in Hin as [v Hv].
  rewrite Hv in H. by exists v.
Qed.

(** X21. The two months of the trend sentence are the two greatest labels
    in the order of their code units: "this" month is the greatest label
    and the month it is compared to is the greatest of the others. *)
Theorem X21_trend_compares_greatest_labels (mm : gmap jsstring float) :
  let months := sorted_months mm in
  let lastMonth := month_at months (length months - 2) in
  let thisMonth := month_at months (length months - 1) in
  (2 ≤ length months)%nat →
  lastMonth ∈ dom mm ∧ thisMonth ∈ dom mm
  ∧ js_ltb lastMonth thisMonth = true
  ∧ ∀ k, k ∈ dom mm → k ≠ thisMonth → js_le k lastMonth.
Proof.
  intros months lastMonth thisMonth Hlen.
  assert (months ≡ₚ (map_to_list mm).*1) as Hperm
    by apply merge_sort_Permutation.
  assert (StronglySorted js_le months) as Hsorted
    by (apply StronglySorted_merge_sort; apply _).
  assert (NoDup months) as Hnodup
    by (rewrite Hperm; apply NoDup_fst_map_to_list).
  assert (∀ k, k ∈ months ↔ k ∈ dom mm) as Hdom.
  { intros k. rewrite Hperm, elem_of_dom, list_elem_of_fmap. split.
    - intros ([k' v] & -> & Hkv). apply elem_of_map_to_list in Hkv. by exists v.
    - intros [v Hv]. exists (k, v). split; [reflexivity |].
      by apply elem_of_map_to_list. }
  destruct (last_two months Hlen) as (pre & a & b & Hmonths).
  assert (lastMonth = a) as ->.
  { unfold lastMonth, month_at. rewrite Hmonths, length_app. cbn [length].
    replace (length pre + 2 - 2)%nat with (length pre + 0)%nat by lia.
    by rewrite lookup_app_r, Nat.add_comm, Nat.add_sub by lia. }
  assert (thisMonth = b) as ->.
  { unfold thisMonth, month_at. rewrite Hmonths, length_app. cbn [length].
    replace (length pre + 2 - 1)%nat with (length pre + 1)%nat by lia.
    by rewrite lookup_app_r, Nat.add_comm, Nat.add_sub by lia. }
  rewrite Hmonths in Hsorted, Hnodup.
  assert (js_le a b) as Hab.
  { pose proof (StronglySorted_app_1_r _ _ _ Hsorted) as Hs2. inversion Hs2 as [| ? ? _ Hall]; subst.
    by inversion Hall. }
  assert (a ≠ b) as Hne.
  { apply NoDup_app in Hnodup as (_ & _ & Hnd). inversion Hnd as [| ? ? Hnotin _]; subst.
    intros ->. apply Hnotin. by left. }
  split; [| split; [| split]].
  - apply Hdom. rewrite Hmonths. set_solver.
  - apply Hdom. rewrite Hmonths. set_solver.
  - apply js_le_cases in Hab as [? | ?]; done.
  - intros k Hk Hkb. apply Hdom in Hk. rewrite Hmonths in Hk.
    apply elem_of_app in Hk as [Hk | Hk].
    + eapply StronglySorted_app_1_elem_of; [exact Hsorted | exact Hk | by left].
    + apply elem_of_cons in Hk as [-> | Hk]; [apply js_le_cases; by left |].
      apply list_elem_of_singleton in Hk. done.
Qed.

Lemma is_nan_eq (x : float) : PrimFloat.is_nan x = true → x = PrimFloat.nan.
Proof.
  intros H. apply Prim2SF_inj. by rewrite (is_nan_Prim2SF x H).
Qed.

(** X22. When the difference between the sums of the two months is [NaN],
    as it is when both sums are the same infinity, the sentence reports the
    later-sorted month as "lower" by [$NaN]. *)
Theorem X22_nan_difference_is_lower (mm : gmap jsstring float) (a b : jsstring) :
  sorted_months mm = [a; b] →
  js_isNaN (PrimFloat.sub (spend_of mm b) (spend_of mm a)) = true →
  trendSummary host mm
  = u16 "Compared to " ++ a ++ u16 ", your spending in " ++ b
    ++ u16 " is lower by $NaN.".
Proof.
  intros Hsorted Hnan. unfold trendSummary. rewrite Hsorted.
  change (trend_sentence host a b (PrimFloat.sub (spend_of mm b) (spend_of mm a))
          = u16 "Compared to " ++ a ++ u16 ", your spending in " ++ b
            ++ u16 " is lower by $NaN.").
  unfold trend_sentence. by rewrite (is_nan_eq _ Hnan).
Qed.

(** X23. Hits are kept in the order of the index's answer, list after
    list: the expenses of several lists of hits are those of the first
    lists followed by those of the last ones. *)
Theorem X23_hits_are_kept_in_order (lists1 lists2 : list (list Metadata)) :
  collect_expenses host (Some {| metadatas := Some (lists1 ++ lists2) |})
  = collect_expenses host (Some {| metadatas := Some lists1 |})
    ++ collect_expenses host (Some {| metadatas := Some lists2 |}).
Proof.
  rewrite !collect_expenses_filter. cbn [raw_hits metadatas].
  by rewrite concat_app, filter_app, map_app.
Qed.

End MoreAggregation.

(** ** Cleaning *)

Lemma trimStart_length (s : jsstring) : (length (trimStart s) ≤ length s)%nat.
Proof.
  induction s as [| c s IH]; [reflexivity |]. cbn [trimStart].
  destruct (is_space c); cbn [length]; lia.
Qed.

Lemma trim_length (s : jsstring) : (length (trim s) ≤ length s)%nat.
Proof.
  unfold trim. rewrite length_rev.
  etrans; [apply trimStart_length |]. rewrite length_rev. apply trimStart_length.
Qed.

Lemma strip_from_length (skip : nat) (s : jsstring) :
  (length (strip_from skip s) ≤ length s)%nat.
Proof.
  revert skip. induction s as [| c s IH]; intros skip; [reflexivity |].
  cbn [strip_from]. destruct skip as [| k].
  - destruct (starts_with marker_s (c :: s)); [specialize (IH 2%nat); cbn [length]; lia |].
    destruct (starts_with marker_out (c :: s)); [specialize (IH 4%nat); cbn [length]; lia |].
    specialize (IH 0%nat). cbn [length]. lia.
  - specialize (IH k). cbn [length]. lia.
Qed.

Lemma strip_markers_plain (s : jsstring) :
  forallb (fun c => negb (marker_start c)) s = true → strip_markers s = s.
Proof.
  unfold strip_markers. induction s as [| c s IH]; [reflexivity |].
  cbn [forallb]. intros [Hc Hs]%andb_prop. cbn [strip_from].
  unfold marker_start in Hc. apply negb_true_iff, orb_false_iff in Hc as [H60 H91].
  assert (starts_with marker_s (c :: s) = false) as ->.
  { change marker_s with (60 :: u16 "s>").
    cbn [starts_with]. by rewrite N.eqb_sym, H60. }
  assert (starts_with marker_out (c :: s) = false) as ->.
  { change marker_out with (91 :: u16 "OUT]").
    cbn [starts_with]. by rewrite N.eqb_sym, H91. }
  by rewrite IH.
Qed.

Lemma trimStart_id (s : jsstring) :
  (∀ c, head s = Some c → is_space c = false) → trimStart s = s.
Proof.
  destruct s as [| c s]; [reflexivity |]. intros H. cbn [trimStart].
  by rewrite (H c eq_refl).
Qed.

Lemma trim_id (s : jsstring) : no_outer_space s → trim s = s.
Proof.
  intros [Hhead Hlast]. unfold trim. rewrite (trimStart_id s Hhead).
  rewrite trimStart_id; [apply rev_involutive |].
  intros c. rewrite head_rev. apply Hlast.
Qed.

(** X24. Cleaning only removes: the cleaned text is never longer than the
    generated one, and a text that holds neither [<] nor [[] and has no
    white space at either end is returned as it is. *)
Theorem X24_clean_only_removes (text : jsstring) :
  (length (clean text) ≤ length text)%nat
  ∧ (forallb (fun c => negb (marker_start c)) text = true →
     no_outer_space text → clean text = text).
Proof.
  unfold clean. split.
  - etrans; [apply trim_length |]. apply strip_from_length.
  - intros Hplain Hspace. rewrite (strip_markers_plain _ Hplain). by apply trim_id.
Qed.

(** ** The HTTP layer *)

Section ServerFacts.

Context (host : Host) (svc : Services).

(** X25. [POST /ai/embed] answers "Embeddings built." whenever the rows
    could be read, whatever happened to each of them: a row that failed is
    on the error console only, and the answer is the same when every row
    failed. *)
Theorem X25_embed_endpoint_always_reports_success
    (st st1 : State) (rows : list Row) :
  initRAG svc st = (Returned tt, st1) →
  sv_poolQuery svc (history st1) select_expenses = Returned rows →
  ∃ st' new,
    post_ai_embed host svc st
    = (Returned (ReplyText ([0x2705] ++ u16 " Embeddings built.")), st')
    ∧ history st' = history st1 ++ new
    ∧ Forall2 (row_accounted host) rows (row_results new).
Proof.
  intros Hinit Hpool.
  destruct (buildEmbeddings_run host svc st st1 rows Hinit Hpool)
    as (st' & new & Hrun & Hh & Hall).
  exists st', new. split; [| split; [exact Hh | exact Hall]].
  unfold post_ai_embed, bind, ret. by rewrite Hrun.
Qed.

End ServerFacts.

(** ** The further properties on the scenarios *)

(** X1 with everything initialised. *)
Lemma X1_pipeline_loaded_once_witness :
  let after := snd (getEmbedding null_answer_services coffee_query warm) in
  history after = [ {| ev_call := CEmbedPipeline coffee_query; ev_ok := true |} ]
  ∧ embedPipeline after = true.
Proof. apply (X1_pipeline_loaded_once null_answer_services coffee_query warm). reflexivity. Defined.

(** X2 on the module as loaded. *)
Lemma X2_first_embedding_loads_pipeline_witness :
  let after := snd (getEmbedding null_answer_services coffee_query fresh) in
  history after
  = [ {| ev_call := CPipeline; ev_ok := true |};
      {| ev_call := CEmbedPipeline coffee_query; ev_ok := true |} ]
  ∧ embedPipeline after = true.
Proof.
  apply (X2_first_embedding_loads_pipeline null_answer_services coffee_query fresh);
    reflexivity.
Defined.

(** X3 when the model files are missing. *)
Lemma X3_pipeline_load_failure_witness :
  ∃ st',
    getEmbedding no_pipeline_services coffee_query fresh
    = (Thrown (service_fault "model files missing"), st')
    ∧ history st' = [ {| ev_call := CPipeline; ev_ok := false |} ]
    ∧ embedPipeline st' = false.
Proof.
  apply (X3_pipeline_load_failure no_pipeline_services coffee_query fresh); reflexivity.
Defined.

(** X4 on the module as loaded. *)
Lemma X4_initRAG_idempotent_witness :
  let st' := snd (initRAG null_answer_services fresh) in
  collection st' = true ∧ model st' = true
  ∧ initRAG null_answer_services st' = (Returned tt, st').
Proof.
  apply (X4_initRAG_idempotent null_answer_services fresh). reflexivity.
Defined.

(** X5 on the module as loaded, when the collection exists already. *)
Lemma X5_createCollection_fault_is_logged_witness :
  ∃ st',
    initRAG collection_exists_services fresh = (Returned tt, st')
    ∧ collection st' = true
    ∧ model st' = true
    ∧ map ev_call (history st')
      = [ CCreateCollection;
          CConsoleLog [VStr ([0x2139; 0xFE0F] ++ u16 " Collection may already exist:");
                       VStr (u16 "already exists")];
          CGetCollection;
          CConsoleLog [VStr ([0x2705] ++ u16 " Chroma collection ready")];
          CNewChatModel;
          CConsoleLog [VStr ([0x2705] ++ u16 " Mistral 7B (via OpenRouter) initialized")] ].
Proof.
  destruct (X5_createCollection_fault_is_logged collection_exists_services fresh
              (service_fault "already exists"))
    as (st' & Hrun & Hc & Hm & Hh); try reflexivity.
  exists st'. split; [exact Hrun |]. split; [exact Hc |]. split; [exact Hm |].
  by rewrite Hh.
Defined.

(** X6 when the index cannot be reached. *)
Lemma X6_getCollection_fault_is_fatal_witness :
  ∃ st',
    initRAG no_index_services fresh = (Thrown (service_fault "connection refused"), st')
    ∧ collection st' = false
    ∧ model st' = false.
Proof.
  destruct (X6_getCollection_fault_is_fatal no_index_services fresh
              (service_fault "connection refused"))
    as (st' & Hrun & Hc & Hm & _); try reflexivity.
  exists st'. split; [exact Hrun |]. split; [exact Hc | exact Hm].
Defined.

(** X7 on a first query. *)
Lemma X7_initialisation_is_kept_witness :
  model (snd (queryInsights sample_host marker_retry_services coffee_query chat_ready))
  = true.
Proof.
  destruct (queryInsights sample_host marker_retry_services coffee_query chat_ready)
    as [o st'] eqn:E.
  apply (proj1 (X7_initialisation_is_kept sample_host marker_retry_services coffee_query)
           _ _ _ E).
  reflexivity.
Defined.

(** X8 on a first query. *)
Lemma X8_queryInsights_only_reads_witness :
  ∃ new,
    history (snd (queryInsights sample_host marker_retry_services coffee_query fresh))
    = history fresh ++ new
    ∧ forallb insight_call new = true.
Proof.
  destruct (queryInsights sample_host marker_retry_services coffee_query fresh)
    as [o st'] eqn:E.
  exact (X8_queryInsights_only_reads sample_host marker_retry_services coffee_query
           _ _ _ E).
Defined.

(** X9 on the five records. *)
Lemma X9_buildEmbeddings_never_generates_witness :
  ∃ new,
    history (snd (buildEmbeddings sample_host five_rows_services fresh))
    = history fresh ++ new
    ∧ forallb ingestion_call new = true.
Proof.
  destruct (buildEmbeddings sample_host five_rows_services fresh) as [o st'] eqn:E.
  exact (X9_buildEmbeddings_never_generates sample_host five_rows_services _ _ _ E).
Defined.

(** X10 when the model files are missing. *)
Lemma X10_query_embedding_fault_witness :
  let st2 := snd (queryInsights sample_host no_pipeline_services coffee_query fresh) in
  queryInsights sample_host no_pipeline_services coffee_query fresh
  = (Thrown (service_fault "model files missing"), st2)
  ∧ query_sizes (history st2) = []
  ∧ invocations (history st2) = [].
Proof.
  apply (X10_query_embedding_fault sample_host no_pipeline_services coffee_query fresh
           (snd (initRAG no_pipeline_services fresh))); reflexivity.
Defined.

(** X11 when the index cannot be queried. *)
Lemma X11_index_query_fault_witness :
  ∃ st',
    queryInsights sample_host no_query_services coffee_query fresh
    = (Thrown (service_fault "query failed"), st')
    ∧ invocations (history st') = [].
Proof.
  destruct (X11_index_query_fault sample_host no_query_services coffee_query fresh
              (snd (initRAG no_query_services fresh))
              (snd (getEmbedding no_query_services coffee_query
                      (snd (initRAG no_query_services fresh))))
              (Some [PrimFloat.one]) (service_fault "query failed"))
    as (st' & Hrun & _ & Hinv); try reflexivity.
  exists st'. split; [exact Hrun | exact Hinv].
Defined.

(** X12 when the index answers [null]. *)
Lemma X12_missing_metadatas_is_no_data_witness :
  fst (queryInsights sample_host null_answer_services coffee_query fresh)
  = Returned no_expenses_sentinel.
Proof.
  rewrite (X12_missing_metadatas_is_no_data sample_host null_answer_services coffee_query
             fresh (snd (initRAG null_answer_services fresh))
             (snd (getEmbedding null_answer_services coffee_query
                     (snd (initRAG null_answer_services fresh))))
             (Some [PrimFloat.one]) None); try reflexivity.
  by left.
Defined.

(** X13 on a steady generator. *)
Lemma X13_insight_is_never_blank_witness :
  ∃ s, fst (queryInsights sample_host collection_exists_services coffee_query fresh)
       = Returned s
       ∧ s ≠ [] ∧ no_outer_space s.
Proof.
  destruct (queryInsights sample_host collection_exists_services coffee_query fresh)
    as [[s | e] st'] eqn:E.
  - exists s. split; [reflexivity |].
    exact (X13_insight_is_never_blank sample_host collection_exists_services
             coffee_query fresh st' s E).
  - vm_compute in E. discriminate E.
Defined.

(** X14 on a generator that says "Hi", then "OK then". *)
Lemma X14_short_insight_comes_from_retry_witness :
  let run := generate sample_host short_retry_services coffee_expenses fresh in
  fst run = Returned (u16 "OK then")
  ∧ length (history (snd run)) = 2%nat.
Proof.
  cbv zeta. split; [vm_compute; reflexivity |].
  rewrite (X14_short_insight_comes_from_retry sample_host short_retry_services
             coffee_expenses fresh _ (u16 "OK then")).
  - reflexivity.
  - vm_compute. reflexivity.
  - vm_compute. lia.
Defined.

(** X15 when the store cannot be read. *)
Lemma X15_ingestion_fatal_faults_witness :
  let st' := snd (buildEmbeddings sample_host no_store_services fresh) in
  buildEmbeddings sample_host no_store_services fresh
  = (Thrown (service_fault "store unavailable"), st')
  ∧ embed_requests (history st') = []
  ∧ added (history st') = [].
Proof.
  apply (X15_ingestion_fatal_faults sample_host no_store_services fresh).
  right. exists (snd (initRAG no_store_services fresh)). repeat split.
Defined.

(** X16 on the five records. *)
Lemma X16_additions_and_reports_add_up_witness :
  ∃ st' new,
    buildEmbeddings sample_host five_rows_services fresh = (Returned RetUndefined, st')
    ∧ history st' = history (snd (initRAG five_rows_services fresh)) ++ new
    ∧ (length (indexed_ids new) + length (error_reports new) = 5)%nat.
Proof.
  apply (X16_additions_and_reports_add_up sample_host five_rows_services fresh
           (snd (initRAG five_rows_services fresh)) five_rows); reflexivity.
Defined.

(** X17 on the five records, with everything initialised. *)
Lemma X17_one_embedding_per_row_witness :
  ∃ st' new,
    buildEmbeddings sample_host five_rows_services warm = (Returned RetUndefined, st')
    ∧ history st' = history warm ++ new
    ∧ embed_requests new = map (fun exp => VStr (describe sample_host exp)) five_rows
    ∧ added new `sublist_of` map (index_entry sample_host) five_rows.
Proof.
  apply (X17_one_embedding_per_row sample_host five_rows_services warm warm five_rows);
    reflexivity.
Defined.

(** X18 on the five records, when the index answers with the metadata of
    the first two. *)
Lemma X18_added_rows_come_back_witness :
  let ingested := snd (buildEmbeddings sample_host round_trip_services fresh) in
  let asked := snd (getEmbedding round_trip_services coffee_query ingested) in
  ∃ picked,
    picked ⊆ five_rows
    ∧ map (index_entry sample_host) picked ⊆ added (history asked)
    ∧ map (metadata_of sample_host) (take 2 five_rows)
      = map (metadata_of sample_host) picked
    ∧ retrieve sample_host round_trip_services coffee_query ingested
      = (Returned
           (map (expense_of_row sample_host)
              (filter (fun exp => js_isNaN (ToNumber sample_host (row_amount exp)) = false)
                 picked)),
         record_event (CCollectionQuery (Some [PrimFloat.one]) 3) true asked).
Proof.
  cbv zeta.
  destruct (X18_added_rows_come_back sample_host round_trip_services fresh
              (snd (initRAG round_trip_services fresh))
              (snd (getEmbedding round_trip_services coffee_query
                      (snd (buildEmbeddings sample_host round_trip_services fresh))))
              five_rows coffee_query (Some [PrimFloat.one])
              (Some {| metadatas := Some [map (metadata_of sample_host) (take 2 five_rows)] |}))
    as (picked & Hpicked & Hentries & Hhits & Hrun).
  - reflexivity.
  - vm_compute. reflexivity.
  - vm_compute. reflexivity.
  - vm_compute. reflexivity.
  - vm_compute. reflexivity.
  - vm_compute. intros m Hm. repeat (apply elem_of_cons in Hm as [-> | Hm]; [set_solver |]).
    by apply elem_of_nil in Hm.
  - exists picked. split; [exact Hpicked |]. split; [exact Hentries |].
    split; [| exact Hrun].
    rewrite <- Hhits. cbn [raw_hits metadatas concat]. by rewrite app_nil_r.
Defined.

(** X20 on the two coffees, for January 2024. *)
Lemma X20_month_value_is_month_sum_witness :
  ∃ v, monthMap (aggregate sample_host coffee_expenses) !! u16 "January 2024" = Some v
       ∧ same_value_zero v
           (sum_amounts (month_amounts sample_host (u16 "January 2024") coffee_expenses))
         = true.
Proof.
  apply (X20_month_value_is_month_sum sample_host coffee_expenses (u16 "January 2024")).
  - vm_compute. set_solver.
  - vm_compute. reflexivity.
Defined.

(** X21 on the two coffees. *)
Lemma X21_trend_compares_greatest_labels_witness :
  let mm := monthMap (aggregate sample_host coffee_expenses) in
  u16 "February 2024" ∈ dom mm ∧ u16 "January 2024" ∈ dom mm
  ∧ js_ltb (u16 "February 2024") (u16 "January 2024") = true
  ∧ ∀ k, k ∈ dom mm → k ≠ u16 "January 2024" → js_le k (u16 "February 2024").
Proof.
  apply (X21_trend_compares_greatest_labels
           (monthMap (aggregate sample_host coffee_expenses))).
  vm_compute. lia.
Defined.

(** X22 on two coffees of infinite amount. *)
Lemma X22_nan_difference_is_lower_witness :
  trendSummary sample_host (monthMap (aggregate sample_host infinite_months))
  = u16 "Compared to February 2024, your spending in January 2024 is lower by $NaN.".
Proof.
  apply (X22_nan_difference_is_lower sample_host
           (monthMap (aggregate sample_host infinite_months))
           (u16 "February 2024") (u16 "January 2024")).
  - vm_compute. reflexivity.
  - vm_compute. reflexivity.
Defined.

(** X24 on a plain sentence. *)
Lemma X24_clean_only_removes_witness :
  clean (u16 "You spend a lot.") = u16 "You spend a lot.".
Proof.
  apply (proj2 (X24_clean_only_removes (u16 "You spend a lot."))).
  - reflexivity.
  - split; intros c Hc; vm_compute in Hc; by inversion Hc.
Defined.

(** X25 on the five records. *)
Lemma X25_embed_endpoint_always_reports_success_witness :
  ∃ st' new,
    post_ai_embed sample_host five_rows_services fresh
    = (Returned (ReplyText ([0x2705] ++ u16 " Embeddings built.")), st')
    ∧ history st' = history (snd (initRAG five_rows_services fresh)) ++ new
    ∧ Forall2 (row_accounted sample_host) five_rows (row_results new).
Proof.
  apply (X25_embed_endpoint_always_reports_success sample_host five_rows_services fresh
           (snd (initRAG five_rows_services fresh)) five_rows); reflexivity.
Defined.
